(** * sqlalchemy-crud-plus: the filter compiler, the sort normalizer and the
      mutation guard of the CRUD facade

    A shallow embedding of [sqlalchemy_crud_plus/my_utils.py] and
    [sqlalchemy_crud_plus/my_crud.py].  SQLAlchemy expressions are kept as
    syntax trees (what the operator methods of a column build), warnings and
    exceptions are threaded through a small writer/error monad, and the
    session is an explicit state. *)

From Stdlib Require Import String Ascii List ZArith Bool Lia DecimalString.
Import ListNotations.
Open Scope string_scope.

Set Implicit Arguments.
Set Warnings "-register-all".

(** ** Python values, exceptions and warnings *)

Module Py.

(** The values a caller can pass as filter operands.  A [dict] keeps its
    insertion order; a [set] is given with the order its iteration yields;
    [Object] stands for a value of any other type that is not iterable,
    such as a float or a date. *)
Inductive Value : Type :=
| None_
| Bool_ (b : bool)
| Int (n : Z)
| Str (s : string)
| Tuple (items : list Value)
| List_ (items : list Value)
| Set_ (items : list Value)
| Dict (items : list (string * Value))
| Object (repr : string).

Inductive Exception : Type :=
| SelectOperatorError (msg : string)
| ModelColumnError (msg : string)
| ColumnSortError (msg : string)
| MultipleResultsError (msg : string)
| ValueError (msg : string)
| TypeError
| AttributeError
| KeyError
| IndexError.

Inductive Warning : Type :=
| SyntaxWarning (msg : string).

Inductive Outcome (A : Type) : Type :=
| Return (a : A)
| Raise (e : Exception).
Arguments Return {A} a.
Arguments Raise {A} e.

(** A computation that may call [warnings.warn] and may raise: the warnings
    issued so far, in order, and how the computation ended. *)
Definition M (A : Type) : Type := (list Warning * Outcome A)%type.

Definition ret {A} (a : A) : M A := ([], Return a).
Definition raise {A} (e : Exception) : M A := ([], Raise e).
Definition warn (w : Warning) : M unit := ([w], Return tt).
Definition lift {A} (o : Outcome A) : M A := ([], o).

Definition bind {A B} (m : M A) (f : A -> M B) : M B :=
  match m with
  | (ws, Return a) => let (ws', r) := f a in ((ws ++ ws')%list, r)
  | (ws, Raise e) => (ws, Raise e)
  end.

Definition warnings_of {A} (m : M A) : list Warning := fst m.
Definition outcome_of {A} (m : M A) : Outcome A := snd m.

(** [isinstance(value, (tuple, list, set))] *)
Definition is_tuple_list_set (v : Value) : bool :=
  match v with
  | Tuple _ | List_ _ | Set_ _ => true
  | _ => false
  end.

(** [isinstance(value, dict)] *)
Definition is_dict (v : Value) : bool :=
  match v with
  | Dict _ => true
  | _ => false
  end.

(** [value.items()] *)
Definition items (v : Value) : Outcome (list (string * Value)) :=
  match v with
  | Dict d => Return d
  | _ => Raise AttributeError
  end.

(** [d.get(key)] on an ordered mapping. *)
Fixpoint get {A} (d : list (string * A)) (key : string) : option A :=
  match d with
  | [] => None
  | (k, v) :: rest => if String.eqb k key then Some v else get rest key
  end.

(** Iterating a value yields its keys (dict), its elements (tuple, list,
    set) or its characters (str); [keys.issubset(value)] iterates [value]. *)
Definition str_chars (s : string) : list string :=
  map (fun c => String c EmptyString) (list_ascii_of_string s).

Definition iter (v : Value) : Outcome (list Value) :=
  match v with
  | Tuple l | List_ l | Set_ l => Return l
  | Dict d => Return (map (fun kv => Str (fst kv)) d)
  | Str s => Return (map Str (str_chars s))
  | _ => Raise TypeError
  end.

Definition mem_str (s : string) (l : list string) : bool :=
  existsb (String.eqb s) l.

Definition is_str (k : string) (v : Value) : bool :=
  match v with
  | Str s => String.eqb s k
  | _ => false
  end.

Definition issubset (keys : list string) (v : Value) : bool :=
  match iter v with
  | Return elements => forallb (fun k => existsb (is_str k) elements) keys
  | Raise _ => false
  end.

(** [value[key]] *)
Definition getitem (v : Value) (key : string) : Outcome Value :=
  match v with
  | Dict d =>
      match get d key with
      | Some x => Return x
      | None => Raise KeyError
      end
  | _ => Raise TypeError
  end.

(** [sep in s] *)
Fixpoint contains (sep s : string) : bool :=
  prefix sep s
  || match s with
     | EmptyString => false
     | String _ rest => contains sep rest
     end.

(** [s[n:]] *)
Fixpoint drop (n : nat) (s : string) : string :=
  match n, s with
  | O, _ => s
  | S n', String _ rest => drop n' rest
  | S _, EmptyString => EmptyString
  end.

(** [s.rsplit(sep, 1)] for a non-empty [sep]: one split, at the occurrence
    of [sep] that starts furthest to the right. *)
Fixpoint rsplit1 (sep s : string) : list string :=
  match s with
  | EmptyString => [EmptyString]
  | String c rest =>
      match rsplit1 sep rest with
      | [a; b] => [String c a; b]
      | _ => if prefix sep s then [EmptyString; drop (String.length sep) s] else [s]
      end
  end.

(** [f'{n}'] for an integer *)
Definition str_of_int (n : Z) : string := NilZero.string_of_int (Z.to_int n).

End Py.

Export Py.

Notation "x <- m ;; k" := (bind m (fun x => k))
  (at level 61, m at next level, right associativity).
Notation "m ;;; k" := (bind m (fun _ => k))
  (at level 61, right associativity).

(** ** SQLAlchemy expressions *)

(** What the operator methods of a column build.  [MethodCall c "__gt__" [v]]
    is the expression [c.__gt__(v)], that is [c > v]; [or_] and [and_] are
    the two connectives the module imports. *)
Inductive ColumnElement : Type :=
| Column (name : string)
| MethodCall (receiver : ColumnElement) (method : string) (args : list Value)
| or_ (clauses : list ColumnElement)
| and_ (clauses : list ColumnElement).

(** The methods take one operand, except
    [between(cleft, cright, symmetric=False)]. *)
Definition call_method (receiver : ColumnElement) (method : string)
    (args : list Value) : Outcome ColumnElement :=
  if String.eqb method "between" then
    match args with
    | [_; _] | [_; _; _] => Return (MethodCall receiver method args)
    | _ => Raise TypeError
    end
  else
    match args with
    | [_] => Return (MethodCall receiver method args)
    | _ => Raise TypeError
    end.

(** A mapped class, or an alias of one: its [repr] and the attributes that
    are columns. *)
Record Model : Type := {
  model_repr : string;
  model_columns : list string;
  model_primary_key : list string
}.

Definition getattr (model : Model) (name : string) : option ColumnElement :=
  if mem_str name (model_columns model) then Some (Column name) else None.

Inductive UnaryExpression : Type :=
| asc (column : ColumnElement)
| desc (column : ColumnElement).

Record Select : Type := {
  select_from : Model;
  whereclause : list ColumnElement;
  order_by_clauses : list UnaryExpression
}.

Definition order_by (stmt : Select) (clause : UnaryExpression) : Select :=
  {| select_from := select_from stmt;
     whereclause := whereclause stmt;
     order_by_clauses := (order_by_clauses stmt ++ [clause])%list |}.

(** Statements the facade hands to [session.execute]. *)
Inductive Statement : Type :=
| SelectCount (model : Model) (whereclause : list ColumnElement)
| Update (model : Model) (whereclause : list ColumnElement)
    (values : list (string * Value))
| Delete (model : Model) (whereclause : list ColumnElement).

Definition is_mutation (stmt : Statement) : bool :=
  match stmt with
  | SelectCount _ _ => false
  | Update _ _ _ | Delete _ _ => true
  end.

(** What [session.execute] returns: [scalar()] for a query, [rowcount] for
    an update or a delete. *)
Record Result : Type := {
  scalar : option Z;
  rowcount : Z
}.

(** The storage collaborator.  Reading the count of the rows that satisfy
    the clauses leaves the stored rows as they are; an update or a delete
    yields the new rows and the row count the engine reports. *)
Class Engine (Database : Type) : Type := {
  select_count : Model -> list ColumnElement -> Database -> option Z;
  mutate : Statement -> Database -> Database * Z
}.

(** The session: the rows as the open transaction sees them, the rows last
    committed, and the statements executed so far. *)
Record Session (Database : Type) : Type := {
  database : Database;
  committed : Database;
  executed : list Statement
}.

Module AsyncSession.
Section Methods.
Context {Database : Type} `{Engine Database}.

Definition execute (stmt : Statement) (session : Session Database)
    : Session Database * Result :=
  match stmt with
  | SelectCount model clauses =>
      ({| database := database session;
          committed := committed session;
          executed := (executed session ++ [stmt])%list |},
       {| scalar := select_count model clauses (database session);
          rowcount := (-1)%Z |})
  | _ =>
      let (db, n) := mutate stmt (database session) in
      ({| database := db;
          committed := committed session;
          executed := (executed session ++ [stmt])%list |},
       {| scalar := None; rowcount := n |})
  end.

Definition commit (session : Session Database) : Session Database :=
  {| database := database session;
     committed := database session;
     executed := executed session |}.

End Methods.
End AsyncSession.

Section IO.
Context {Database : Type} `{Engine Database}.

(** A computation on a session that may warn and may raise; the session
    keeps what was done before an exception. *)
Definition IO (A : Type) : Type := Session Database -> Session Database * M A.

Definition io_ret {A} (a : A) : IO A := fun session => (session, ret a).

Definition io_lift {A} (m : M A) : IO A := fun session => (session, m).

Definition io_bind {A B} (m : IO A) (f : A -> IO B) : IO B :=
  fun session =>
    match m session with
    | (session1, (ws, Return a)) =>
        match f a session1 with
        | (session2, (ws', r)) => (session2, ((ws ++ ws')%list, r))
        end
    | (session1, (ws, Raise e)) => (session1, (ws, Raise e))
    end.

Definition io_execute (stmt : Statement) : IO Result :=
  fun session => let (session', result) := AsyncSession.execute stmt session in
                 (session', ret result).

Definition io_commit : IO unit :=
  fun session => (AsyncSession.commit session, ret tt).

End IO.

Notation "x <~ m ;; k" := (io_bind m (fun x => k))
  (at level 61, m at next level, right associativity).
Notation "m ~;; k" := (io_bind m (fun _ => k))
  (at level 61, right associativity).

(** ** my_utils.py *)

Module my_utils.

(** The operator table: for each operator name the column method that the
    entry [lambda col: col.<method>] hands out. *)
Definition _SUPPORTED_FILTERS : list (string * string) :=
  [ ("gt", "__gt__");
    ("lt", "__lt__");
    ("ge", "__ge__");
    ("le", "__le__");
    ("eq", "__eq__");
    ("ne", "__ne__");
    ("between", "between");
    ("in", "in_");
    ("not_in", "not_in");
    ("is", "is_");
    ("is_not", "is_not");
    ("is_distinct_from", "is_distinct_from");
    ("is_not_distinct_from", "is_not_distinct_from");
    ("like", "like");
    ("not_like", "not_like");
    ("ilike", "ilike");
    ("not_ilike", "not_ilike");
    ("startswith", "startswith");
    ("endswith", "endswith");
    ("contains", "contains");
    ("match", "match");
    ("concat", "concat");
    ("add", "__add__");
    ("radd", "__radd__");
    ("sub", "__sub__");
    ("rsub", "__rsub__");
    ("mul", "__mul__");
    ("rmul", "__rmul__");
    ("truediv", "__truediv__");
    ("rtruediv", "__rtruediv__");
    ("floordiv", "__floordiv__");
    ("rfloordiv", "__rfloordiv__");
    ("mod", "__mod__");
    ("rmod", "__rmod__") ].

Definition sequence_operators : list string := ["in"; "not_in"; "between"].

Definition arithmetic_operators : list string :=
  ["add"; "radd"; "sub"; "rsub"; "mul"; "rmul"; "truediv"; "rtruediv";
   "floordiv"; "rfloordiv"; "mod"; "rmod"].

Definition invalid_value_error (operator : string) : Exception :=
  SelectOperatorError
    ("The value for <" ++ operator ++ "> must be tuple, list, or set.").

Definition nested_arithmetic_error (operator : string) : Exception :=
  SelectOperatorError
    ("Nested arithmetic operations are not allowed: " ++ operator).

Definition unsupported_operator_warning (operator : string) : Warning :=
  SyntaxWarning
    ("The operator <" ++ operator ++ "> is not supported. Supported operators: "
     ++ String.concat ", " (map fst _SUPPORTED_FILTERS) ++ ".").

(** The filter of an operator is the entry of the table, or [None]. *)
Definition get_sqlalchemy_filter (operator : string) (value : Value)
    (allow_arithmetic : bool) : M (option string) :=
  if mem_str operator sequence_operators && negb (is_tuple_list_set value) then
    raise (invalid_value_error operator)
  else if mem_str operator arithmetic_operators && negb allow_arithmetic then
    raise (nested_arithmetic_error operator)
  else
    match get _SUPPORTED_FILTERS operator with
    | None => warn (unsupported_operator_warning operator) ;;; ret None
    | Some sqlalchemy_filter => ret (Some sqlalchemy_filter)
    end.

Definition column_not_found (model : Model) (field_name : string) : Exception :=
  ModelColumnError
    ("Column " ++ field_name ++ " not found in " ++ model_repr model ++ ".").

Definition get_column (model : Model) (field_name : string) : M ColumnElement :=
  match getattr model field_name with
  | None => raise (column_not_found model field_name)
  | Some column => ret column
  end.

(** Calling the filter on the column and then on the operands; calling
    [None] is a [TypeError]. *)
Definition apply_filter (sqlalchemy_filter : option string)
    (column : ColumnElement) (args : list Value) : Outcome ColumnElement :=
  match sqlalchemy_filter with
  | None => Raise TypeError
  | Some method => call_method column method args
  end.

(** The operands of a call: the value itself, or the value unpacked for
    [between]. *)
Definition operands (op : string) (value : Value) : Outcome (list Value) :=
  if negb (String.eqb op "between") then Return [value] else iter value.

(** The comprehension of the [or] branch, entry by entry: the filter of the
    entry is looked up first, and applied to the column when there is one. *)
Fixpoint or_filters (column : ColumnElement) (entries : list (string * Value))
    : M (list ColumnElement) :=
  match entries with
  | [] => ret []
  | (or_op, or_value) :: rest =>
      sqlalchemy_filter <- get_sqlalchemy_filter or_op or_value true ;;
      match sqlalchemy_filter with
      | None => or_filters column rest
      | Some _ =>
          f <- lift (apply_filter sqlalchemy_filter column [or_value]) ;;
          fs <- or_filters column rest ;;
          ret (f :: fs)
      end
  end.

(** The loop over [condition.items()] of the two-stage branch: the filter of
    the entry is looked up, the arithmetic expression is built from the
    column, and the filter of the entry is called on it and on the operand,
    unpacked for [between]. *)
Fixpoint condition_filters (sqlalchemy_filter : option string)
    (column : ColumnElement) (advanced_value : Value)
    (condition : list (string * Value)) : M (list ColumnElement) :=
  match condition with
  | [] => ret []
  | (cond_op, cond_value) :: rest =>
      cond_filter <- get_sqlalchemy_filter cond_op cond_value false ;;
      arithmetic <- lift (apply_filter sqlalchemy_filter column [advanced_value]) ;;
      args <- lift (operands cond_op cond_value) ;;
      f <- lift (apply_filter cond_filter arithmetic args) ;;
      fs <- condition_filters sqlalchemy_filter column advanced_value rest ;;
      ret (f :: fs)
  end.

(** The body of the loop of [parse_filters] for one [key, value] pair: the
    filters it appends. *)
Definition parse_filter (model : Model) (key : string) (value : Value)
    : M (list ColumnElement) :=
  if contains "__" key then
    match rsplit1 "__" key with
    | [field_name; op] =>
        column <- get_column model field_name ;;
        sqlalchemy_filter <- get_sqlalchemy_filter op value true ;;
        if String.eqb op "or" then
          entries <- lift (items value) ;;
          fs <- or_filters column entries ;;
          ret [or_ fs]
        else if is_dict value && issubset ["value"; "condition"] value then
          advanced_value <- lift (getitem value "value") ;;
          condition <- lift (getitem value "condition") ;;
          entries <- lift (items condition) ;;
          fs <- condition_filters sqlalchemy_filter column advanced_value entries ;;
          ret [and_ fs]
        else
          match sqlalchemy_filter with
          | Some _ =>
              args <- lift (operands op value) ;;
              f <- lift (apply_filter sqlalchemy_filter column args) ;;
              ret [f]
          | None => ret []
          end
    | _ => raise (ValueError "not enough values to unpack (expected 2, got 1)")
    end
  else
    column <- get_column model key ;;
    f <- lift (call_method column "__eq__" [value]) ;;
    ret [f].

Fixpoint parse_filters_from (model : Model) (filters : list ColumnElement)
    (kwargs : list (string * Value)) : M (list ColumnElement) :=
  match kwargs with
  | [] => ret filters
  | (key, value) :: rest =>
      fs <- parse_filter model key value ;;
      parse_filters_from model (filters ++ fs)%list rest
  end.

Definition parse_filters (model : Model) (kwargs : list (string * Value))
    : M (list ColumnElement) :=
  parse_filters_from model [] kwargs.

(** *** Sorting *)

(** [sort_columns] and [sort_orders]: [None], one name, or a list of names. *)
Inductive SortArg : Type :=
| NoSort
| OneName (s : string)
| Names (l : list string).

(** Truth value of the argument: [None], the empty string and the empty list
    are false. *)
Definition truthy (a : SortArg) : bool :=
  match a with
  | NoSort => false
  | OneName s => negb (String.eqb s EmptyString)
  | Names l => negb (Nat.eqb (List.length l) 0)
  end.

(** [[x] if isinstance(x, str) else x] *)
Definition as_list (a : SortArg) : list string :=
  match a with
  | NoSort => []
  | OneName s => [s]
  | Names l => l
  end.

Fixpoint order_by_each (model : Model) (stmt : Select)
    (pairs : list (string * string)) : M Select :=
  match pairs with
  | [] => ret stmt
  | (column_name, order) :: rest =>
      column <- get_column model column_name ;;
      order_by_each model
        (order_by stmt (if String.eqb order "asc" then asc column else desc column))
        rest
  end.

Definition apply_sorting (model : Model) (stmt : Select)
    (sort_columns sort_orders : SortArg) : M Select :=
  if truthy sort_orders && negb (truthy sort_columns) then
    raise (ValueError "Sort orders provided without corresponding sort columns.")
  else if truthy sort_columns then
    let sort_columns := as_list sort_columns in
    let validated_sort_orders := repeat "asc" (List.length sort_columns) in
    validated_sort_orders <-
      (if truthy sort_orders then
         let sort_orders := as_list sort_orders in
         if negb (Nat.eqb (List.length sort_columns) (List.length sort_orders)) then
           raise (ColumnSortError
                    "The length of sort_columns and sort_orders must match.")
         else ret sort_orders
       else ret validated_sort_orders) ;;
    order_by_each model stmt (combine sort_columns validated_sort_orders)
  else ret stmt.

(** *** Counting *)

Section Counting.
Context {Database : Type} `{Engine Database}.

(** [query.scalar() or 0] *)
Definition scalar_or_0 (result : Result) : Z :=
  match scalar result with
  | None => 0%Z
  | Some n => n
  end.

Definition count (model : Model) (filters : list ColumnElement)
    : IO (Database := Database) Z :=
  let stmt := SelectCount model [] in
  let stmt := match filters with
              | [] => stmt
              | _ => SelectCount model filters
              end in
  query <~ io_execute stmt ;;
  io_ret (scalar_or_0 query).

End Counting.

End my_utils.

(** ** Keyword arguments, instances and the unit of work *)

Module Kwargs.

(** [d[k] = v]: the value of a key that is there is replaced in place, a new
    key goes to the end. *)
Fixpoint setitem (d : list (string * Value)) (k : string) (v : Value)
    : list (string * Value) :=
  match d with
  | [] => [(k, v)]
  | (k', v') :: rest =>
      if String.eqb k' k then (k', v) :: rest else (k', v') :: setitem rest k v
  end.

(** The dict display that unpacks [d1] and then [d2]. *)
Definition merged (d1 d2 : list (string * Value)) : list (string * Value) :=
  fold_left (fun d kv => setitem d (fst kv) (snd kv)) d2 d1.

(** The keywords of a call that unpacks [d1] and then [d2]: a keyword given
    twice is a [TypeError]. *)
Definition unpacked (d1 d2 : list (string * Value))
    : Outcome (list (string * Value)) :=
  if existsb (fun kv => mem_str (fst kv) (map fst d1)) d2
  then Raise TypeError
  else Return (d1 ++ d2)%list.

End Kwargs.

(** A schema object, seen through [model_dump()]. *)
Record CreateSchema : Type := {
  model_dump : list (string * Value)
}.

(** The mapped class as a collaborator: its constructor, the instances a
    select yields from the stored rows, and the rows after pending
    instances are flushed. *)
Class Mapper (Database Instance : Type) : Type := {
  construct : Model -> list (string * Value) -> Outcome Instance;
  select_instances : Select -> Database -> list Instance;
  flush : list Instance -> Database -> Database
}.

(** A session together with the instances added to it and not yet flushed. *)
Record UnitOfWork (Database Instance : Type) : Type := {
  session_of : Session Database;
  pending : list Instance
}.

Module Pending.
Section Methods.
Context {Database Instance : Type} `{Mapper Database Instance}.

Definition add_all (instances : list Instance)
    (work : UnitOfWork Database Instance) : UnitOfWork Database Instance :=
  {| session_of := session_of work;
     pending := (pending work ++ instances)%list |}.

Definition add (instance : Instance) (work : UnitOfWork Database Instance)
    : UnitOfWork Database Instance :=
  add_all [instance] work.

(** A commit flushes what is pending and makes the rows durable. *)
Definition commit (work : UnitOfWork Database Instance)
    : UnitOfWork Database Instance :=
  let rows := flush (pending work) (database (session_of work)) in
  {| session_of := {| database := rows;
                      committed := rows;
                      executed := executed (session_of work) |};
     pending := [] |}.

End Methods.
End Pending.

(** ** my_crud.py *)

Module my_crud.

Import my_utils.

Record CRUDPlus : Type := {
  model : Model;
  primary_key : ColumnElement
}.

(** The first column of the mapper's primary key; a composite key only adds
    a printed line. *)
Definition _get_primary_key (model : Model) : list string * Outcome ColumnElement :=
  match model_primary_key model with
  | [pk] => ([], Return (Column pk))
  | pk :: _ =>
      (["Composite primary keys are not supported,use " ++ pk], Return (Column pk))
  | [] => ([], Raise IndexError)
  end.

Definition __init__ (model : Model) : Outcome CRUDPlus :=
  match snd (_get_primary_key model) with
  | Return pk => Return {| model := model; primary_key := pk |}
  | Raise e => Raise e
  end.

(** What is updated: a schema object, seen through
    [model_dump(exclude_unset=True)], or a plain [dict]. *)
Inductive UpdateObject : Type :=
| Schema (model_dump_exclude_unset : list (string * Value))
| PlainDict (d : list (string * Value)).

Definition instance_data_of (obj : UpdateObject) : list (string * Value) :=
  match obj with
  | Schema dumped => dumped
  | PlainDict d => d
  end.

Definition multiple_update_error (total_count : Z) : Exception :=
  MultipleResultsError
    ("Only one record is expected to be updated, found "
     ++ str_of_int total_count ++ " records.").

Definition multiple_delete_error (total_count : Z) : Exception :=
  MultipleResultsError
    ("Only one record is expected to be deleted, found "
     ++ str_of_int total_count ++ " records.").

Section Facade.
Context {Database : Type} `{Engine Database}.

Definition _commit_if_needed (commit : bool) : IO (Database := Database) unit :=
  if commit then io_commit else io_ret tt.

Definition pk_equals (self : CRUDPlus) (pk : Value) : Outcome ColumnElement :=
  call_method (primary_key self) "__eq__" [pk].


Definition update_model_by_column (self : CRUDPlus) (obj : UpdateObject)
    (allow_multiple commit : bool) (kwargs : list (string * Value))
    : IO (Database := Database) Z :=
  filters <~ io_lift (parse_filters (model self) kwargs) ;;
  total_count <~ count (model self) filters ;;
  if negb allow_multiple && (1 <? total_count)%Z then
    io_lift (raise (multiple_update_error total_count))
  else
    let instance_data := instance_data_of obj in
    let stmt := Update (model self) filters instance_data in
    result <~ io_execute stmt ;;
    _commit_if_needed commit ~;;
    io_ret (rowcount result).

Definition delete_model (self : CRUDPlus) (pk : Value) (commit : bool)
    : IO (Database := Database) Z :=
  clause <~ io_lift (lift (pk_equals self pk)) ;;
  let stmt := Delete (model self) [clause] in
  result <~ io_execute stmt ;;
  _commit_if_needed commit ~;;
  io_ret (rowcount result).

Definition delete_model_by_column (self : CRUDPlus)
    (allow_multiple logical_deletion : bool) (deleted_flag_column : string)
    (commit : bool) (kwargs : list (string * Value))
    : IO (Database := Database) Z :=
  filters <~ io_lift (parse_filters (model self) kwargs) ;;
  total_count <~ count (model self) filters ;;
  if negb allow_multiple && (1 <? total_count)%Z then
    io_lift (raise (multiple_delete_error total_count))
  else
    let stmt :=
      if logical_deletion then
        let deleted_flag := [(deleted_flag_column, Bool_ true)] in
        Update (model self) filters deleted_flag
      else Delete (model self) filters in
    result <~ io_execute stmt ;;
    _commit_if_needed commit ~;;
    io_ret total_count.

End Facade.

Section Queries.
Context {Database Instance : Type} `{Mapper Database Instance}.

(** [select(self.model).where( *clauses)] *)
Definition select_where (self : CRUDPlus) (clauses : list ColumnElement)
    : Select :=
  {| select_from := model self; whereclause := clauses; order_by_clauses := [] |}.

(** A query reads the rows of the session: [scalars().first()] is the
    first instance or [None], [scalars().all()] the whole list. *)
Definition select_model (self : CRUDPlus) (pk : Value)
    (session : Session Database) : M (option Instance) :=
  clause <- lift (pk_equals self pk) ;;
  let stmt := select_where self [clause] in
  ret (hd_error (select_instances stmt (database session))).

Definition select_model_by_column (self : CRUDPlus)
    (kwargs : list (string * Value)) (session : Session Database)
    : M (option Instance) :=
  filters <- parse_filters (model self) kwargs ;;
  let stmt := select_where self filters in
  ret (hd_error (select_instances stmt (database session))).

Definition select_models (self : CRUDPlus) (kwargs : list (string * Value))
    (session : Session Database) : M (list Instance) :=
  filters <- parse_filters (model self) kwargs ;;
  let stmt := select_where self filters in
  ret (select_instances stmt (database session)).

Definition select_models_order (self : CRUDPlus)
    (sort_columns sort_orders : SortArg) (kwargs : list (string * Value))
    (session : Session Database) : M (list Instance) :=
  filters <- parse_filters (model self) kwargs ;;
  let stmt := select_where self filters in
  stmt_sort <- apply_sorting (model self) stmt sort_columns sort_orders ;;
  ret (select_instances stmt_sort (database session)).

End Queries.

Section Creation.
Context {Database Instance : Type} `{Mapper Database Instance}.

Definition _commit_work_if_needed (commit : bool)
    (work : UnitOfWork Database Instance) : UnitOfWork Database Instance :=
  if commit then Pending.commit work else work.

(** [self.model( **obj.model_dump(), **kwargs)] *)
Definition create_model (self : CRUDPlus) (obj : CreateSchema) (commit : bool)
    (kwargs : list (string * Value)) (work : UnitOfWork Database Instance)
    : UnitOfWork Database Instance * Outcome Instance :=
  match Kwargs.unpacked (model_dump obj) kwargs with
  | Raise e => (work, Raise e)
  | Return data =>
      match construct (model self) data with
      | Raise e => (work, Raise e)
      | Return ins =>
          (_commit_work_if_needed commit (Pending.add ins work), Return ins)
      end
  end.

(** The comprehension [[self.model( **ins.model_dump()) for ins in obj]]. *)
Fixpoint ins_list (self : CRUDPlus) (obj : list CreateSchema)
    : Outcome (list Instance) :=
  match obj with
  | [] => Return []
  | ins :: rest =>
      match construct (model self) (model_dump ins) with
      | Raise e => Raise e
      | Return first =>
          match ins_list self rest with
          | Raise e => Raise e
          | Return others => Return (first :: others)
          end
      end
  end.

Definition create_models (self : CRUDPlus) (obj : list CreateSchema)
    (commit : bool) (work : UnitOfWork Database Instance)
    : UnitOfWork Database Instance * Outcome (list Instance) :=
  match ins_list self obj with
  | Raise e => (work, Raise e)
  | Return instances =>
      (_commit_work_if_needed commit (Pending.add_all instances work),
       Return instances)
  end.

End Creation.

End my_crud.

(** ** crud.py *)

Module crud.

Import my_crud.

Section Creation.
Context {Database Instance : Type} `{Mapper Database Instance}.

(** [data = { **obj.model_dump(), **kwargs}] and then [self.model( **data)] *)
Definition create_model (self : CRUDPlus) (obj : CreateSchema) (commit : bool)
    (kwargs : list (string * Value)) (work : UnitOfWork Database Instance)
    : UnitOfWork Database Instance * Outcome Instance :=
  let data := Kwargs.merged (model_dump obj) kwargs in
  match construct (model self) data with
  | Raise e => (work, Raise e)
  | Return ins =>
      (_commit_work_if_needed commit (Pending.add ins work), Return ins)
  end.

End Creation.

End crud.

Import my_utils my_crud.

(** ** What the branches of [parse_filters] are expected to build *)

(** The expression of one operator: the method the table gives for it,
    called on [receiver] with [args]; nothing for an operator the table
    lacks. *)
Definition built (receiver : ColumnElement) (op : string) (args : list Value)
    : list ColumnElement :=
  match get _SUPPORTED_FILTERS op with
  | Some method => [MethodCall receiver method args]
  | None => []
  end.

(** The warning of each operator the table lacks, in the order of the
    entries. *)
Definition unknown_warnings (entries : list (string * Value)) : list Warning :=
  flat_map (fun entry : string * Value =>
              match get _SUPPORTED_FILTERS (fst entry) with
              | Some _ => []
              | None => [unsupported_operator_warning (fst entry)]
              end) entries.

(** The members of an [or] group: every known operator applied to the column
    and the value of its entry. *)
Definition disjuncts (column : ColumnElement) (entries : list (string * Value))
    : list ColumnElement :=
  flat_map (fun entry : string * Value => built column (fst entry) [snd entry])
           entries.

(** An entry of an [or] group that the guard of the table lets through and
    that is called with its value as the one operand. *)
Definition or_entry_accepted (entry : string * Value) : bool :=
  negb (String.eqb (fst entry) "between")
  && (negb (mem_str (fst entry) sequence_operators)
      || is_tuple_list_set (snd entry)).

Definition elements (v : Value) : list Value :=
  match iter v with
  | Return l => l
  | Raise _ => []
  end.

(** The comparisons of a [condition]: every entry's operator applied to the
    arithmetic expression and the entry's operand, the two or three bounds
    of [between] unpacked. *)
Definition comparisons (arithmetic : ColumnElement)
    (condition : list (string * Value)) : list ColumnElement :=
  flat_map (fun entry : string * Value =>
              built arithmetic (fst entry)
                (if String.eqb (fst entry) "between"
                 then elements (snd entry) else [snd entry]))
           condition.

(** An entry of a [condition] that is a comparison: a known operator, not an
    arithmetic one, with a sequence where the table asks for one and two or
    three bounds for [between]. *)
Definition comparison_accepted (entry : string * Value) : bool :=
  match get _SUPPORTED_FILTERS (fst entry) with
  | None => false
  | Some _ =>
      negb (mem_str (fst entry) arithmetic_operators)
      && (negb (mem_str (fst entry) sequence_operators)
          || is_tuple_list_set (snd entry))
      && (negb (String.eqb (fst entry) "between")
          || match elements (snd entry) with
             | [_; _] | [_; _; _] => true
             | _ => false
             end)
  end.

(** The ordering clause of a column name and a direction. *)
Definition ordering (pair : string * string) : UnaryExpression :=
  if String.eqb (snd pair) "asc" then asc (Column (fst pair))
  else desc (Column (fst pair)).

(** The statement with further ordering clauses at its end. *)
Definition ordered (stmt : Select) (clauses : list UnaryExpression) : Select :=
  {| select_from := select_from stmt;
     whereclause := whereclause stmt;
     order_by_clauses := (order_by_clauses stmt ++ clauses)%list |}.

(** The first of the names that is not a column of the model. *)
Definition first_missing (model : Model) (names : list string) : option string :=
  find (fun name => negb (mem_str name (model_columns model))) names.

(** The session after the count query of the guard. *)
Definition counted {Database : Type} (session : Session Database)
    (model : Model) (filters : list ColumnElement) : Session Database :=
  {| database := database session;
     committed := committed session;
     executed := (executed session ++ [SelectCount model filters])%list |}.

(** The number of rows the filters match before any mutation, as the count
    query reports it. *)
Definition matched {Database : Type} `{Engine Database} (model : Model)
    (filters : list ColumnElement) (session : Session Database) : Z :=
  match select_count model filters (database session) with
  | Some n => n
  | None => 0%Z
  end.

(** The row count the engine reports for a statement run on the session. *)
Definition reported {Database : Type} `{Engine Database} (stmt : Statement)
    (session : Session Database) : Z :=
  snd (mutate stmt (database session)).




(** The column that an ordering clause sorts by. *)
Definition column_of (clause : UnaryExpression) : ColumnElement :=
  match clause with
  | asc column | desc column => column
  end.

(** A value of the two-stage shape: a mapping with both [value] and
    [condition]. *)
Definition two_stage (value : Value) : bool :=
  is_dict value && issubset ["value"; "condition"] value.

(** The operands an operator is called with. *)
Definition operands_of (op : string) (value : Value) : list Value :=
  if String.eqb op "between" then elements value else [value].

(** The bounds of [between] are two or three. *)
Definition bounds_accepted (op : string) (value : Value) : bool :=
  negb (String.eqb op "between")
  || match elements value with
     | [_; _] | [_; _; _] => true
     | _ => false
     end.

(** ** A model and an engine to run the code on *)

Module sample.

Definition User : Model :=
  {| model_repr := "<class 'app.models.User'>";
     model_columns := ["id"; "f"; "a"; "a__b"; "del_flag"];
     model_primary_key := ["id"] |}.

Definition users : CRUDPlus :=
  {| model := User; primary_key := Column "id" |}.

Definition query : Select :=
  {| select_from := User; whereclause := []; order_by_clauses := [] |}.

(** Rows of integer columns, kept in a list. *)
Definition Row : Type := list (string * Z).

Definition as_int (v : Value) : option Z :=
  match v with
  | Int n => Some n
  | Bool_ b => Some (if b then 1 else 0)%Z
  | _ => None
  end.

(** The comparisons of a column with an integer that the engine evaluates. *)
Definition satisfies (row : Row) (clause : ColumnElement) : bool :=
  match clause with
  | MethodCall (Column name) method [v] =>
      match get row name, as_int v with
      | Some x, Some n =>
          if String.eqb method "__eq__" then (x =? n)%Z
          else if String.eqb method "__gt__" then (n <? x)%Z
          else if String.eqb method "__lt__" then (x <? n)%Z
          else false
      | _, _ => false
      end
  | _ => false
  end.

Definition selected (clauses : list ColumnElement) (row : Row) : bool :=
  forallb (satisfies row) clauses.

Fixpoint assign (name : string) (x : Z) (row : Row) : Row :=
  match row with
  | [] => []
  | (k, y) :: rest =>
      if String.eqb k name then (k, x) :: rest else (k, y) :: assign name x rest
  end.

Definition assign_all (values : list (string * Value)) (row : Row) : Row :=
  fold_left (fun r kv => match as_int (snd kv) with
                         | Some x => assign (fst kv) x r
                         | None => r
                         end) values row.

Fixpoint same_row (r1 r2 : Row) : bool :=
  match r1, r2 with
  | [], [] => true
  | (k1, x1) :: t1, (k2, x2) :: t2 =>
      String.eqb k1 k2 && (x1 =? x2)%Z && same_row t1 t2
  | _, _ => false
  end.

(** An engine whose row count of an update is the number of rows it
    changed, and of a delete the number of rows it removed. *)
#[global] Instance changed_rows_engine : Engine (list Row) := {|
  select_count := fun _ clauses rows =>
    Some (Z.of_nat (List.length (filter (selected clauses) rows)));
  mutate := fun stmt rows =>
    match stmt with
    | Update _ clauses values =>
        (map (fun r => if selected clauses r then assign_all values r else r) rows,
         Z.of_nat (List.length
                     (filter (fun r => selected clauses r
                                       && negb (same_row r (assign_all values r)))
                             rows)))
    | Delete _ clauses =>
        (filter (fun r => negb (selected clauses r)) rows,
         Z.of_nat (List.length (filter (selected clauses) rows)))
    | SelectCount _ _ => (rows, (-1)%Z)
    end
|}.

Definition rows : list Row :=
  [ [("id", 1); ("f", 7); ("del_flag", 0)];
    [("id", 2); ("f", 7); ("del_flag", 1)];
    [("id", 3); ("f", 9); ("del_flag", 0)] ]%Z.

Definition session : Session (list Row) :=
  {| database := rows; committed := rows; executed := [] |}.

(** Instances are rows; the constructor accepts the columns of the model
    with integer values, a select yields the rows its clauses select, and a
    flush appends the pending rows. *)
Definition make_row (model : Model) (data : list (string * Value)) : Outcome Row :=
  if forallb (fun kv => mem_str (fst kv) (model_columns model)) data
  then Return (flat_map (fun kv => match as_int (snd kv) with
                                   | Some x => [(fst kv, x)]
                                   | None => []
                                   end) data)
  else Raise TypeError.

#[global] Instance row_mapper : Mapper (list Row) Row := {|
  construct := make_row;
  select_instances := fun stmt rows => filter (selected (whereclause stmt)) rows;
  flush := fun instances rows => (rows ++ instances)%list
|}.

Definition work : UnitOfWork (list Row) Row :=
  {| session_of := session; pending := [] |}.

End sample.

(** * Properties *)

(** ** Strings: membership of the delimiter and the split from the right *)

Section Strings.

Lemma prefix_app (p s : string) : prefix p (p ++ s) = true.
Proof.
  induction p as [|c p IH]; simpl.
  - now destruct s.
  - destruct (Ascii.ascii_dec c c); [exact IH | congruence].
Qed.

Lemma prefix_drop (p s : string) :
  prefix p s = true -> s = p ++ drop (String.length p) s.
Proof.
  revert s; induction p as [|c p IH]; intros s Hp; simpl.
  - reflexivity.
  - destruct s as [|d s]; simpl in Hp; [discriminate|].
    destruct (Ascii.ascii_dec c d); [subst d | discriminate].
    simpl. f_equal. now apply IH.
Qed.

Lemma contains_prefix (sep s : string) :
  prefix sep s = true -> contains sep s = true.
Proof. intros Hp. destruct s; simpl in *; rewrite Hp; reflexivity. Qed.

Lemma contains_tail (sep : string) (c : ascii) (s : string) :
  contains sep s = true -> contains sep (String c s) = true.
Proof. intros Hs. simpl. rewrite Hs. apply orb_true_r. Qed.

Lemma contains_app (sep a b : string) : contains sep (a ++ sep ++ b) = true.
Proof.
  induction a as [|c a IH].
  - cbn [append]. apply contains_prefix, prefix_app.
  - now apply contains_tail.
Qed.

(** [rsplit1] yields the string itself or two parts. *)
Lemma rsplit1_shape (sep s : string) :
  rsplit1 sep s = [s] \/ exists a b, rsplit1 sep s = [a; b].
Proof.
  induction s as [|c s IH]; cbn [rsplit1].
  - now left.
  - destruct IH as [-> | (a & b & ->)].
    + destruct (prefix sep (String c s)); [right | left]; eauto.
    + right; eauto.
Qed.

(** The two parts, joined by the delimiter, give the string back. *)
Lemma rsplit1_join (sep s a b : string) :
  rsplit1 sep s = [a; b] -> s = a ++ sep ++ b.
Proof.
  revert a b; induction s as [|c s IH]; intros a b.
  - discriminate.
  - cbn [rsplit1].
    destruct (rsplit1_shape sep s) as [E | (a' & b' & E)]; rewrite E.
    + destruct (prefix sep (String c s)) eqn:Hp; [|discriminate].
      intros [= <- <-]. now apply prefix_drop.
    + intros [= <- <-]. simpl. f_equal. now apply IH.
Qed.

(** With the delimiter inside, there are two parts. *)
Lemma rsplit1_contains (sep s : string) :
  sep <> EmptyString -> contains sep s = true -> exists a b, rsplit1 sep s = [a; b].
Proof.
  intros Hsep. induction s as [|c s IH].
  - destruct sep; [congruence | discriminate].
  - cbn [contains rsplit1]. intros Hc.
    destruct (rsplit1_shape sep s) as [E | (a' & b' & E)]; rewrite E; eauto.
    destruct (prefix sep (String c s)) eqn:Hp; eauto.
    apply orb_true_iff in Hc as [Hc | Hc]; [congruence|].
    destruct (IH Hc) as (a & b & E'). rewrite E' in E. discriminate.
Qed.

(** Without the delimiter inside, the string stays whole. *)
Lemma rsplit1_whole (sep s : string) :
  contains sep s = false -> rsplit1 sep s = [s].
Proof.
  intros Hc. destruct (rsplit1_shape sep s) as [E | (a & b & E)]; [exact E|].
  apply rsplit1_join in E. rewrite E, contains_app in Hc. discriminate.
Qed.

(** The split is at the occurrence that starts furthest to the right: a part
    after the delimiter that holds no further occurrence is the second part. *)
Lemma rsplit1_last (sep a b : string) :
  sep <> EmptyString ->
  contains sep (drop 1 (sep ++ b)) = false ->
  rsplit1 sep (a ++ sep ++ b) = [a; b].
Proof.
  intros Hsep Hb. induction a as [|c a IH].
  - destruct sep as [|c sep]; [congruence|].
    cbn [append rsplit1]. cbn [append drop] in Hb.
    rewrite (rsplit1_whole _ _ Hb).
    change (String c (sep ++ b)) with (String c sep ++ b).
    rewrite prefix_app.
    assert (Hd : forall p s, drop (String.length p) (p ++ s) = s)
      by (induction p; simpl; auto).
    rewrite Hd. destruct (sep ++ b); reflexivity.
  - cbn [append rsplit1]. now rewrite IH.
Qed.

(** No occurrence of the delimiter starts to the right of the split. *)
Lemma rsplit1_rightmost (sep s a b : string) :
  sep <> EmptyString ->
  rsplit1 sep s = [a; b] ->
  forall a' b', s = a' ++ sep ++ b' -> String.length a' <= String.length a.
Proof.
  intros Hsep. revert a b; induction s as [|c s IH]; intros a b.
  - discriminate.
  - cbn [rsplit1].
    destruct (rsplit1_shape sep s) as [E | (a0 & b0 & E)]; rewrite E.
    + destruct (prefix sep (String c s)) eqn:Hp; [|discriminate].
      intros [= <- <-] a' b' Hs.
      destruct a' as [|d a']; [simpl; lia|].
      simpl in Hs. injection Hs as _ Hs.
      destruct (@rsplit1_contains sep s Hsep) as (x & y & Hxy).
      * rewrite Hs. apply contains_app.
      * rewrite Hxy in E. discriminate.
    + intros [= <- <-] a' b' Hs.
      destruct a' as [|d a']; [simpl; lia|].
      simpl in Hs. injection Hs as _ Hs.
      simpl. apply le_n_S. now apply (IH _ _ E a' b').
Qed.

End Strings.

(** ** The warning/exception monad *)

Section Monad.
Context {A B C : Type}.

Lemma bind_ret_l (a : A) (f : A -> M B) : bind ([], Return a) f = f a.
Proof. unfold bind. now destruct (f a). Qed.

Lemma bind_raise (e : Exception) (f : A -> M B) : bind (raise e) f = raise e.
Proof. reflexivity. Qed.

Lemma bind_assoc (m : M A) (f : A -> M B) (g : B -> M C) :
  bind (bind m f) g = bind m (fun a => bind (f a) g).
Proof.
  destruct m as [ws [a | e]]; simpl; [|reflexivity].
  destruct (f a) as [ws1 [b | e]]; simpl; [|reflexivity].
  destruct (g b) as [ws2 r]. now rewrite app_assoc.
Qed.

Lemma bind_returned (ws : list Warning) (a : A) (f : A -> M B) :
  bind (ws, Return a) f = ((ws ++ warnings_of (f a))%list, outcome_of (f a)).
Proof. simpl. now destruct (f a). Qed.

Lemma bind_raised (ws : list Warning) (e : Exception) (f : A -> M B) :
  bind (ws, Raise e) f = (ws, Raise e).
Proof. reflexivity. Qed.

Lemma bind_ext (m : M A) (f g : A -> M B) :
  (forall a, f a = g a) -> bind m f = bind m g.
Proof. intros E. destruct m as [ws [a | e]]; simpl; [now rewrite E | reflexivity]. Qed.

End Monad.

(** One step of a computation whose first part has returned. *)
Ltac returned := rewrite bind_ret_l; cbv beta.

(** ** The loop of [parse_filters] *)

Section Loop.
Variable model : Model.

Lemma parse_filters_from_app (acc : list ColumnElement)
    (pre post : list (string * Value)) :
  parse_filters_from model acc (pre ++ post)%list =
  bind (parse_filters_from model acc pre)
       (fun acc' => parse_filters_from model acc' post).
Proof.
  revert acc; induction pre as [|[key value] pre IH]; intros acc.
  - cbn [app parse_filters_from]. unfold ret. now rewrite bind_ret_l.
  - cbn [app parse_filters_from]. rewrite bind_assoc.
    apply bind_ext. intros fs. apply IH.
Qed.

(** One more pair after pairs that compiled: its filters are appended. *)
Lemma parse_filters_snoc (pre : list (string * Value)) (key : string)
    (value : Value) (ws ws' : list Warning) (fs fs' : list ColumnElement) :
  parse_filters model pre = (ws, Return fs) ->
  parse_filter model key value = (ws', Return fs') ->
  parse_filters model (pre ++ [(key, value)])%list =
  ((ws ++ ws')%list, Return (fs ++ fs')%list).
Proof.
  unfold parse_filters. intros Hpre Hkey.
  rewrite parse_filters_from_app, Hpre. cbn [parse_filters_from].
  rewrite Hkey. simpl. now rewrite app_nil_r.
Qed.

(** A pair that raises, after pairs that compiled, ends the compilation. *)
Lemma parse_filters_raises (pre post : list (string * Value)) (key : string)
    (value : Value) (ws ws' : list Warning) (fs : list ColumnElement)
    (e : Exception) :
  parse_filters model pre = (ws, Return fs) ->
  parse_filter model key value = (ws', Raise e) ->
  parse_filters model (pre ++ (key, value) :: post)%list =
  ((ws ++ ws')%list, Raise e).
Proof.
  unfold parse_filters. intros Hpre Hkey.
  rewrite parse_filters_from_app, Hpre. cbn [parse_filters_from].
  rewrite Hkey. reflexivity.
Qed.

(** A pair that only warns and appends nothing. *)
Lemma parse_filters_skips (pre post : list (string * Value)) (key : string)
    (value : Value) (w : Warning) :
  parse_filter model key value = ([w], Return []) ->
  outcome_of (parse_filters model (pre ++ (key, value) :: post)%list) =
  outcome_of (parse_filters model (pre ++ post)%list)
  /\ forall ws fs, parse_filters model pre = (ws, Return fs) ->
       warnings_of (parse_filters model (pre ++ (key, value) :: post)%list) =
       (ws ++ w :: warnings_of (parse_filters_from model fs post))%list
       /\ warnings_of (parse_filters model (pre ++ post)%list) =
          (ws ++ warnings_of (parse_filters_from model fs post))%list.
Proof.
  unfold parse_filters. intros Hkey.
  rewrite !parse_filters_from_app. cbn [parse_filters_from]. rewrite Hkey.
  destruct (parse_filters_from model [] pre) as [ws0 [fs0 | e]].
  - cbn [bind]. rewrite app_nil_r.
    destruct (parse_filters_from model fs0 post) as [ws1 r1] eqn:Epost. cbn.
    split; [reflexivity|].
    intros ws fs [= <- <-]. rewrite Epost. split; reflexivity.
  - split; [reflexivity | discriminate].
Qed.

End Loop.

(** ** The operator table and its guard *)

Section OperatorTable.

Lemma mem_str_In (s : string) (l : list string) :
  mem_str s l = true <-> In s l.
Proof.
  unfold mem_str. rewrite existsb_exists. split.
  - intros (x & Hx & E). apply String.eqb_eq in E. now subst.
  - intros Hs. exists s. split; [exact Hs | apply String.eqb_refl].
Qed.

Lemma sequence_operators_known (op : string) :
  mem_str op sequence_operators = true -> get _SUPPORTED_FILTERS op <> None.
Proof.
  rewrite mem_str_In. cbn [sequence_operators In].
  intros [<- | [<- | [<- | []]]]; discriminate.
Qed.

Lemma arithmetic_operators_known (op : string) :
  mem_str op arithmetic_operators = true -> get _SUPPORTED_FILTERS op <> None.
Proof.
  rewrite mem_str_In. cbn [arithmetic_operators In].
  intros H; repeat (destruct H as [<- | H]; [discriminate|]); destruct H.
Qed.

Lemma arithmetic_not_sequence (op : string) :
  mem_str op arithmetic_operators = true -> mem_str op sequence_operators = false.
Proof.
  rewrite mem_str_In. cbn [arithmetic_operators In].
  intros H; repeat (destruct H as [<- | H]; [reflexivity|]); destruct H.
Qed.

(** An operator that the table lacks: a warning, and no filter. *)
Lemma get_sqlalchemy_filter_unknown (op : string) (value : Value) (allow : bool) :
  get _SUPPORTED_FILTERS op = None ->
  get_sqlalchemy_filter op value allow =
  ([unsupported_operator_warning op], Return None).
Proof.
  intros Hop. unfold get_sqlalchemy_filter.
  destruct (mem_str op sequence_operators) eqn:Hs;
    [now apply sequence_operators_known in Hs|].
  destruct (mem_str op arithmetic_operators) eqn:Ha;
    [now apply arithmetic_operators_known in Ha|].
  cbn [andb]. now rewrite Hop.
Qed.

(** An operator of the table that passes both checks: its filter, silently. *)
Lemma get_sqlalchemy_filter_known (op method : string) (value : Value)
    (allow : bool) :
  get _SUPPORTED_FILTERS op = Some method ->
  (mem_str op sequence_operators = true -> is_tuple_list_set value = true) ->
  (mem_str op arithmetic_operators = true -> allow = true) ->
  get_sqlalchemy_filter op value allow = ([], Return (Some method)).
Proof.
  intros Hop Hs Ha. unfold get_sqlalchemy_filter.
  destruct (mem_str op sequence_operators).
  - rewrite Hs by reflexivity. cbn [negb andb].
    destruct (mem_str op arithmetic_operators).
    + rewrite Ha by reflexivity. cbn [negb andb]. now rewrite Hop.
    + cbn [andb]. now rewrite Hop.
  - cbn [andb]. destruct (mem_str op arithmetic_operators).
    + rewrite Ha by reflexivity. cbn [negb andb]. now rewrite Hop.
    + cbn [andb]. now rewrite Hop.
Qed.

Lemma get_sqlalchemy_filter_invalid_value (op : string) (value : Value)
    (allow : bool) :
  mem_str op sequence_operators = true ->
  is_tuple_list_set value = false ->
  get_sqlalchemy_filter op value allow = ([], Raise (invalid_value_error op)).
Proof.
  intros Hs Hv. unfold get_sqlalchemy_filter. now rewrite Hs, Hv.
Qed.

Lemma get_sqlalchemy_filter_nested (op : string) (value : Value) :
  mem_str op arithmetic_operators = true ->
  get_sqlalchemy_filter op value false = ([], Raise (nested_arithmetic_error op)).
Proof.
  intros Ha. unfold get_sqlalchemy_filter.
  now rewrite (arithmetic_not_sequence _ Ha), Ha.
Qed.

(** Only [between] hands out the method [between]. *)
Lemma between_method (op method : string) :
  get _SUPPORTED_FILTERS op = Some method ->
  String.eqb method "between" = String.eqb op "between".
Proof.
  unfold _SUPPORTED_FILTERS.
  repeat (cbn [get];
          match goal with
          | |- context [String.eqb ?k op] =>
              destruct (String.eqb_spec k op) as [<- | _];
              [intros [= <-]; reflexivity|]
          end).
  discriminate.
Qed.

End OperatorTable.

(** ** Keys *)

Section Keys.
Variable model : Model.

(** The branch of a key with the delimiter, named by its two parts. *)
Lemma parse_filter_delimited (key field_name op : string) (value : Value) :
  contains "__" key = true ->
  rsplit1 "__" key = [field_name; op] ->
  parse_filter model key value =
  (column <- get_column model field_name ;;
   sqlalchemy_filter <- get_sqlalchemy_filter op value true ;;
   if String.eqb op "or" then
     entries <- lift (items value) ;;
     fs <- or_filters column entries ;;
     ret [or_ fs]
   else if is_dict value && issubset ["value"; "condition"] value then
     advanced_value <- lift (getitem value "value") ;;
     condition <- lift (getitem value "condition") ;;
     entries <- lift (items condition) ;;
     fs <- condition_filters sqlalchemy_filter column advanced_value entries ;;
     ret [and_ fs]
   else
     match sqlalchemy_filter with
     | Some _ =>
         args <- lift (operands op value) ;;
         f <- lift (apply_filter sqlalchemy_filter column args) ;;
         ret [f]
     | None => ret []
     end).
Proof. intros Hc Hr. unfold parse_filter. now rewrite Hc, Hr. Qed.

Lemma get_column_found (field_name : string) :
  mem_str field_name (model_columns model) = true ->
  get_column model field_name = ([], Return (Column field_name)).
Proof. intros Hf. unfold get_column, getattr. now rewrite Hf. Qed.

Lemma get_column_missing (field_name : string) :
  mem_str field_name (model_columns model) = false ->
  get_column model field_name = ([], Raise (column_not_found model field_name)).
Proof. intros Hf. unfold get_column, getattr. now rewrite Hf. Qed.

End Keys.

(** ** The branches of a delimited key *)

Section Branches.
Variable model : Model.

(** A key written as a field name, the delimiter and an operator that holds
    no further delimiter is split into these two. *)
Lemma parse_filter_field_op (field_name op : string) (value : Value) :
  contains "__" ("_" ++ op) = false ->
  parse_filter model (field_name ++ "__" ++ op) value =
  (column <- get_column model field_name ;;
   sqlalchemy_filter <- get_sqlalchemy_filter op value true ;;
   if String.eqb op "or" then
     entries <- lift (items value) ;;
     fs <- or_filters column entries ;;
     ret [or_ fs]
   else if is_dict value && issubset ["value"; "condition"] value then
     advanced_value <- lift (getitem value "value") ;;
     condition <- lift (getitem value "condition") ;;
     entries <- lift (items condition) ;;
     fs <- condition_filters sqlalchemy_filter column advanced_value entries ;;
     ret [and_ fs]
   else
     match sqlalchemy_filter with
     | Some _ =>
         args <- lift (operands op value) ;;
         f <- lift (apply_filter sqlalchemy_filter column args) ;;
         ret [f]
     | None => ret []
     end).
Proof.
  intros Hop. apply parse_filter_delimited.
  - apply contains_app.
  - apply rsplit1_last; [discriminate | exact Hop].
Qed.

Lemma not_between (op : string) :
  negb (String.eqb op "between") = true -> String.eqb op "between" = false.
Proof. now destruct (String.eqb op "between"). Qed.

(** The [or] group: every entry the guard lets through is looked up, the
    unknown ones warn, the known ones are applied to the column. *)
Lemma or_filters_accepted (column : ColumnElement)
    (entries : list (string * Value)) :
  forallb or_entry_accepted entries = true ->
  or_filters column entries =
  (unknown_warnings entries, Return (disjuncts column entries)).
Proof.
  induction entries as [|[or_op or_value] rest IH]; [reflexivity|].
  cbn [forallb]. intros [Hentry Hrest]%andb_true_iff.
  unfold or_entry_accepted in Hentry. cbn [fst snd] in Hentry.
  apply andb_true_iff in Hentry as [Hb%not_between Hseq].
  cbn [or_filters unknown_warnings disjuncts flat_map fst snd]. unfold built.
  destruct (get _SUPPORTED_FILTERS or_op) as [method|] eqn:Hop.
  - rewrite (@get_sqlalchemy_filter_known or_op method or_value true Hop);
      [|intros Hs; rewrite Hs in Hseq; exact Hseq | reflexivity].
    returned. unfold apply_filter, call_method.
    rewrite (between_method _ Hop), Hb. unfold lift. returned.
    fold (unknown_warnings rest). fold (disjuncts column rest).
    rewrite (IH Hrest). cbn [bind ret]. now rewrite app_nil_r.
  - rewrite get_sqlalchemy_filter_unknown by exact Hop.
    fold (unknown_warnings rest). fold (disjuncts column rest).
    cbn [bind]. rewrite (IH Hrest). reflexivity.
Qed.

(** Unknown operators only: a warning each, and no member. *)
Lemma or_filters_unknown (column : ColumnElement)
    (entries : list (string * Value)) :
  (forall entry, In entry entries -> get _SUPPORTED_FILTERS (fst entry) = None) ->
  or_filters column entries =
  (map (fun entry => unsupported_operator_warning (fst entry)) entries, Return []).
Proof.
  induction entries as [|[or_op or_value] rest IH]; intros Hall; [reflexivity|].
  cbn [or_filters map fst].
  rewrite get_sqlalchemy_filter_unknown
    by exact (Hall (or_op, or_value) (or_introl eq_refl)).
  cbn [bind]. rewrite IH; [reflexivity|].
  intros entry Hin. apply Hall. now right.
Qed.

(** The [condition] of a two-stage value: every comparison is applied to the
    arithmetic expression. *)
Lemma condition_filters_accepted (method : string) (column : ColumnElement)
    (advanced_value : Value) (condition : list (string * Value)) :
  String.eqb method "between" = false ->
  forallb comparison_accepted condition = true ->
  condition_filters (Some method) column advanced_value condition =
  ([], Return (comparisons (MethodCall column method [advanced_value]) condition)).
Proof.
  intros Hm. induction condition as [|[cond_op cond_value] rest IH];
    [reflexivity|].
  cbn [forallb]. intros [Hentry Hrest]%andb_true_iff.
  unfold comparison_accepted in Hentry. cbn [fst snd] in Hentry.
  destruct (get _SUPPORTED_FILTERS cond_op) as [cond_method|] eqn:Hop;
    [|discriminate].
  apply andb_true_iff in Hentry as [Hentry Hbounds].
  apply andb_true_iff in Hentry as [Harith Hseq].
  cbn [condition_filters comparisons flat_map fst snd]. unfold built.
  rewrite Hop.
  rewrite (@get_sqlalchemy_filter_known cond_op cond_method cond_value false Hop);
    [|intros Hs; rewrite Hs in Hseq; exact Hseq
     |intros Ha; rewrite Ha in Harith; discriminate].
  returned. unfold apply_filter at 1. unfold call_method at 1.
  rewrite Hm. unfold lift. returned.
  fold (comparisons (MethodCall column method [advanced_value]) rest).
  unfold operands, apply_filter, call_method.
  rewrite (between_method _ Hop).
  destruct (String.eqb_spec cond_op "between") as [-> | _]; cbn [negb orb] in *.
  - assert (Hiter : iter cond_value = Return (elements cond_value)).
    { cbn in Hseq. unfold elements.
      destruct cond_value; try discriminate; reflexivity. }
    rewrite Hiter. returned.
    destruct (elements cond_value) as [|b1 [|b2 [|b3 [|b4 bs]]]];
      try discriminate; returned; rewrite (IH Hrest); reflexivity.
  - returned. returned. rewrite (IH Hrest). reflexivity.
Qed.

(** An arithmetic operator after comparisons: the nested-arithmetic error. *)
Lemma condition_filters_nested (method : string) (column : ColumnElement)
    (advanced_value : Value) (before after : list (string * Value))
    (op : string) (value : Value) :
  String.eqb method "between" = false ->
  forallb comparison_accepted before = true ->
  mem_str op arithmetic_operators = true ->
  condition_filters (Some method) column advanced_value
    (before ++ (op, value) :: after)%list =
  ([], Raise (nested_arithmetic_error op)).
Proof.
  intros Hm Hbefore Hop.
  induction before as [|[cond_op cond_value] rest IH].
  - cbn [app condition_filters].
    now rewrite get_sqlalchemy_filter_nested by exact Hop.
  - cbn [forallb] in Hbefore. apply andb_true_iff in Hbefore as [Hentry Hrest].
    assert (Hone := @condition_filters_accepted method column advanced_value
                      [(cond_op, cond_value)] Hm).
    cbn [forallb] in Hone. rewrite Hentry in Hone. specialize (Hone eq_refl).
    cbn [condition_filters] in Hone |- *. cbn [app condition_filters].
    revert Hone.
    destruct (get_sqlalchemy_filter cond_op cond_value false) as [ws [cf | e]];
      cbn [bind]; [|discriminate].
    destruct (lift (apply_filter (Some method) column [advanced_value]))
      as [ws1 [arith | e]]; cbn [bind]; [|discriminate].
    destruct (lift (operands cond_op cond_value)) as [ws2 [args | e]];
      cbn [bind]; [|discriminate].
    destruct (lift (apply_filter cf arith args)) as [ws3 [f | e]];
      cbn [bind]; [|discriminate].
    rewrite (IH Hrest). cbn. intros [= -> _]. 
    reflexivity.
Qed.

Lemma get_issubset (d : list (string * Value)) (key : string) (v : Value) :
  get d key = Some v ->
  existsb (is_str key) (map (fun kv : string * Value => Str (fst kv)) d) = true.
Proof.
  induction d as [|[k x] rest IH]; [discriminate|].
  cbn [get map existsb is_str fst].
  destruct (String.eqb k key); [reflexivity|].
  intros Hrest. rewrite (IH Hrest). apply orb_true_r.
Qed.

(** The operators named in the two lists of the guard hold no delimiter. *)
Lemma sequence_operator_plain (op : string) :
  mem_str op sequence_operators = true ->
  contains "__" ("_" ++ op) = false /\ String.eqb op "or" = false.
Proof.
  rewrite mem_str_In. cbn [sequence_operators In].
  intros [<- | [<- | [<- | []]]]; split; reflexivity.
Qed.

Lemma arithmetic_operator_plain (op : string) :
  mem_str op arithmetic_operators = true ->
  contains "__" ("_" ++ op) = false /\ String.eqb op "or" = false.
Proof.
  rewrite mem_str_In. cbn [arithmetic_operators In].
  intros H; repeat (destruct H as [<- | H]; [split; reflexivity|]); destruct H.
Qed.

(** The pair of an [or] key, whatever its value: the warning for [or] comes
    first. *)
Lemma parse_filter_or_warns (field_name : string) (value : Value) :
  mem_str field_name (model_columns model) = true ->
  exists ws r,
    parse_filter model (field_name ++ "__or") value =
    (unsupported_operator_warning "or" :: ws, r).
Proof.
  intros Hf. change (field_name ++ "__or") with (field_name ++ "__" ++ "or").
  rewrite parse_filter_field_op by reflexivity.
  rewrite get_column_found by exact Hf. returned.
  rewrite get_sqlalchemy_filter_unknown by reflexivity.
  cbn [String.eqb Ascii.eqb Bool.eqb bind].
  match goal with |- context [let (ws', r) := ?m in _] => destruct m as [ws r] end.
  now exists ws, r.
Qed.

(** The pair of an [or] key whose entries the guard lets through. *)
Lemma parse_filter_or_group (field_name : string)
    (entries : list (string * Value)) :
  mem_str field_name (model_columns model) = true ->
  forallb or_entry_accepted entries = true ->
  parse_filter model (field_name ++ "__or") (Dict entries) =
  (unsupported_operator_warning "or" :: unknown_warnings entries,
   Return [or_ (disjuncts (Column field_name) entries)]).
Proof.
  intros Hf Hentries.
  change (field_name ++ "__or") with (field_name ++ "__" ++ "or").
  rewrite parse_filter_field_op by reflexivity.
  rewrite get_column_found by exact Hf. returned.
  rewrite get_sqlalchemy_filter_unknown by reflexivity.
  cbn [String.eqb Ascii.eqb Bool.eqb items]. unfold lift.
  rewrite bind_returned. cbv beta. returned.
  rewrite (or_filters_accepted _ _ Hentries).
  cbn [bind ret app warnings_of outcome_of fst snd]. now rewrite app_nil_r.
Qed.

End Branches.

(** ** C7: the key is split at the last delimiter *)

(** C7.  A key that holds the delimiter is split by [parse_filters] into a
    field name and an operator at the occurrence of the delimiter that starts
    furthest to the right: the two parts joined by the delimiter give the key
    back, no other way of cutting the key at a delimiter leaves a longer
    field name, the field name is the column that is resolved, and the
    operator is the one looked up.  The key [a__b__gt] gives the field
    [a__b] and the operator [gt], not the field [a] of the first
    delimiter. *)
Theorem parse_filters_splits_at_last_delimiter :
  (forall key : string,
      contains "__" key = true ->
      exists field_name op : string,
        rsplit1 "__" key = [field_name; op]
        /\ key = field_name ++ "__" ++ op
        /\ (forall a b : string,
               key = a ++ "__" ++ b ->
               String.length a <= String.length field_name)
        /\ (forall (model : Model) (value : Value),
               mem_str field_name (model_columns model) = false ->
               parse_filters model [(key, value)] =
               ([], Raise (column_not_found model field_name)))
        /\ (forall (model : Model) (value : Value) (method : string),
               mem_str field_name (model_columns model) = true ->
               get _SUPPORTED_FILTERS op = Some method ->
               mem_str op sequence_operators = false ->
               is_dict value = false ->
               parse_filters model [(key, value)] =
               ([], Return [MethodCall (Column field_name) method [value]])))
  /\ rsplit1 "__" "a__b__gt" = ["a__b"; "gt"]
  /\ rsplit1 "__" "a__b__gt" <> ["a"; "b__gt"]
  /\ parse_filters sample.User [("a__b__gt", Int 5)] =
     ([], Return [MethodCall (Column "a__b") "__gt__" [Int 5]]).
Proof.
  split; [|split; [reflexivity | split; [discriminate | reflexivity]]].
  intros key Hkey.
  assert (Hsep : "__" <> EmptyString) by discriminate.
  destruct (@rsplit1_contains "__" key Hsep Hkey) as (field_name & op & Hsplit).
  exists field_name, op.
  split; [exact Hsplit|].
  split; [now apply rsplit1_join|].
  split; [now apply rsplit1_rightmost with (b := op)|].
  split.
  - intros model value Hmissing.
    unfold parse_filters. cbn [parse_filters_from].
    rewrite (parse_filter_delimited model _ value Hkey Hsplit).
    now rewrite (get_column_missing _ _ Hmissing).
  - intros model value method Hfound Hop Hseq Hdict.
    assert (Hor : String.eqb op "or" = false).
    { destruct (String.eqb_spec op "or") as [-> | _]; [discriminate | reflexivity]. }
    assert (Hbetween : String.eqb op "between" = false).
    { destruct (String.eqb_spec op "between") as [-> | _];
        [discriminate | reflexivity]. }
    unfold parse_filters. cbn [parse_filters_from].
    rewrite (parse_filter_delimited model _ value Hkey Hsplit).
    rewrite (get_column_found _ _ Hfound). returned.
    rewrite (@get_sqlalchemy_filter_known op method value true Hop);
      [|rewrite Hseq; discriminate | reflexivity].
    returned. rewrite Hor, Hdict. cbn [andb].
    unfold operands, apply_filter, call_method.
    rewrite Hbetween, (between_method _ Hop), Hbetween. reflexivity.
Qed.

Lemma parse_filters_splits_at_last_delimiter_witness :
  exists field_name op : string,
    rsplit1 "__" "a__b__gt" = [field_name; op]
    /\ "a__b__gt" = field_name ++ "__" ++ op
    /\ (forall a b : string,
           "a__b__gt" = a ++ "__" ++ b ->
           String.length a <= String.length field_name)
    /\ (forall (model : Model) (value : Value),
           mem_str field_name (model_columns model) = false ->
           parse_filters model [("a__b__gt", value)] =
           ([], Raise (column_not_found model field_name)))
    /\ (forall (model : Model) (value : Value) (method : string),
           mem_str field_name (model_columns model) = true ->
           get _SUPPORTED_FILTERS op = Some method ->
           mem_str op sequence_operators = false ->
           is_dict value = false ->
           parse_filters model [("a__b__gt", value)] =
           ([], Return [MethodCall (Column field_name) method [value]])).
Proof.
  apply (proj1 parse_filters_splits_at_last_delimiter "a__b__gt"). reflexivity.
Defined.

(** ** C9: an [or] key warns about [or] and still appends its disjunction *)

(** C9.  The table has no entry for [or].  Compiling a key [f__or] of a
    column [f] therefore issues the unsupported-operator warning that names
    [or], whatever the value of the key is and whatever follows.  The
    disjunction is built and appended all the same, and a group whose inner
    operators are all unknown appends the empty disjunction, after one
    warning for [or] and one for each inner operator. *)
Theorem or_key_warns_and_appends_disjunction :
  get _SUPPORTED_FILTERS "or" = None
  /\ (forall (model : Model) (pre post : list (string * Value))
             (f : string) (value : Value)
             (ws : list Warning) (fs : list ColumnElement),
         mem_str f (model_columns model) = true ->
         parse_filters model pre = (ws, Return fs) ->
         exists ws' r,
           parse_filters model (pre ++ ((f ++ "__or")%string, value) :: post)%list =
           ((ws ++ unsupported_operator_warning "or" :: ws')%list, r))
  /\ (forall (model : Model) (pre : list (string * Value)) (f : string)
             (entries : list (string * Value))
             (ws : list Warning) (fs : list ColumnElement),
         mem_str f (model_columns model) = true ->
         parse_filters model pre = (ws, Return fs) ->
         forallb or_entry_accepted entries = true ->
         parse_filters model (pre ++ [((f ++ "__or")%string, Dict entries)])%list =
         ((ws ++ unsupported_operator_warning "or" :: unknown_warnings entries)%list,
          Return (fs ++ [or_ (disjuncts (Column f) entries)])%list))
  /\ (forall (model : Model) (pre : list (string * Value)) (f : string)
             (entries : list (string * Value))
             (ws : list Warning) (fs : list ColumnElement),
         mem_str f (model_columns model) = true ->
         parse_filters model pre = (ws, Return fs) ->
         (forall entry, In entry entries ->
                        get _SUPPORTED_FILTERS (fst entry) = None) ->
         parse_filters model (pre ++ [((f ++ "__or")%string, Dict entries)])%list =
         ((ws ++ unsupported_operator_warning "or"
              :: map (fun entry => unsupported_operator_warning (fst entry))
                     entries)%list,
          Return (fs ++ [or_ []])%list)).
Proof.
  split; [reflexivity|]. split; [|split].
  - intros model pre post f value ws fs Hf Hpre.
    destruct (parse_filter_or_warns model f value Hf) as (ws1 & r1 & Hkey).
    unfold parse_filters in *.
    rewrite parse_filters_from_app, Hpre. cbn [parse_filters_from].
    rewrite Hkey. destruct r1 as [fs1 | e].
    + rewrite bind_returned. cbv beta. rewrite bind_returned. cbv beta.
      cbn [warnings_of outcome_of fst snd]. rewrite <- app_comm_cons.
      eauto.
    + cbn [bind]. eauto.
  - intros model pre f entries ws fs Hf Hpre Hentries.
    eapply parse_filters_snoc; [exact Hpre|].
    now apply parse_filter_or_group.
  - intros model pre f entries ws fs Hf Hpre Hunknown.
    eapply parse_filters_snoc; [exact Hpre|].
    change (f ++ "__or") with (f ++ "__" ++ "or").
    rewrite parse_filter_field_op by reflexivity.
    rewrite get_column_found by exact Hf. returned.
    rewrite get_sqlalchemy_filter_unknown by reflexivity.
    cbn [String.eqb Ascii.eqb Bool.eqb items]. unfold lift.
    rewrite bind_returned. cbv beta. returned.
    rewrite (or_filters_unknown _ _ Hunknown).
    cbn [bind ret app warnings_of outcome_of fst snd]. now rewrite app_nil_r.
Qed.

Lemma or_key_warns_and_appends_disjunction_witness :
  parse_filters sample.User
    ([("id", Int 1)] ++ [("f__or", Dict [("frobnicate", Int 5); ("nope", Int 1)])])%list =
  (([] ++ unsupported_operator_warning "or"
       :: map (fun entry : string * Value => unsupported_operator_warning (fst entry))
              [("frobnicate", Int 5); ("nope", Int 1)])%list,
   Return ([MethodCall (Column "id") "__eq__" [Int 1]] ++ [or_ []])%list).
Proof.
  apply (proj2 (proj2 (proj2 or_key_warns_and_appends_disjunction))
           sample.User [("id", Int 1)] "f"
           [("frobnicate", Int 5); ("nope", Int 1)]).
  - reflexivity.
  - reflexivity.
  - intros entry [<- | [<- | []]]; reflexivity.
Defined.

(** ** C5: the [or] group *)

(** The claim of C5 fails where the guard of the table refuses an inner
    entry: the group [{"in": 5}] raises, and no predicate is appended. *)
Lemma or_group_with_refused_entry_raises :
  parse_filters sample.User [("f__or", Dict [("in", Int 5)])] =
  ([unsupported_operator_warning "or"], Raise (invalid_value_error "in"))
  /\ ~ (exists ws predicate,
          parse_filters sample.User [("f__or", Dict [("in", Int 5)])] =
          (ws, Return [predicate])).
Proof.
  split; [reflexivity|]. intros (ws & predicate & H). discriminate H.
Qed.

(** An inner [between] is called with its value as one operand, which the
    method refuses. *)
Example or_group_with_between_raises :
  parse_filters sample.User [("f__or", Dict [("between", List_ [Int 1; Int 5])])] =
  ([unsupported_operator_warning "or"], Raise TypeError).
Proof. reflexivity. Qed.

(** C5, amended.  For a key [f__or] of a column [f] whose value is a mapping
    of operator names to values in which no entry is [between] and every
    [in] or [not_in] entry has a tuple, list or set as its value,
    [parse_filters] appends exactly one predicate: the disjunction of every
    known inner operator applied to the column and the value of its entry,
    in the order of the entries; unknown inner operators are skipped, each
    with a warning.  [{"f__or": {"gt": 5, "lt": 1}}] yields the single
    predicate [(f > 5) OR (f < 1)]. *)
Theorem or_group_is_one_disjunction :
  (forall (model : Model) (pre : list (string * Value)) (f : string)
          (entries : list (string * Value))
          (ws : list Warning) (fs : list ColumnElement),
      mem_str f (model_columns model) = true ->
      parse_filters model pre = (ws, Return fs) ->
      forallb or_entry_accepted entries = true ->
      parse_filters model (pre ++ [((f ++ "__or")%string, Dict entries)])%list =
      ((ws ++ unsupported_operator_warning "or" :: unknown_warnings entries)%list,
       Return (fs ++ [or_ (disjuncts (Column f) entries)])%list))
  /\ parse_filters sample.User [("f__or", Dict [("gt", Int 5); ("lt", Int 1)])] =
     ([unsupported_operator_warning "or"],
      Return [or_ [MethodCall (Column "f") "__gt__" [Int 5];
                   MethodCall (Column "f") "__lt__" [Int 1]]])
  /\ parse_filters sample.User
       [("f__or", Dict [("gt", Int 5); ("frobnicate", Int 0); ("lt", Int 1)])] =
     ([unsupported_operator_warning "or"; unsupported_operator_warning "frobnicate"],
      Return [or_ [MethodCall (Column "f") "__gt__" [Int 5];
                   MethodCall (Column "f") "__lt__" [Int 1]]]).
Proof.
  split; [|split; reflexivity].
  intros model pre f entries ws fs Hf Hpre Hentries.
  eapply parse_filters_snoc; [exact Hpre|].
  now apply parse_filter_or_group.
Qed.

Lemma or_group_is_one_disjunction_witness :
  parse_filters sample.User
    ([("id", Int 1)] ++ [(("f" ++ "__or")%string, Dict [("gt", Int 5); ("in", List_ [Int 1])])])%list =
  (([] ++ unsupported_operator_warning "or"
       :: unknown_warnings [("gt", Int 5); ("in", List_ [Int 1])])%list,
   Return ([MethodCall (Column "id") "__eq__" [Int 1]]
           ++ [or_ (disjuncts (Column "f") [("gt", Int 5); ("in", List_ [Int 1])])])%list).
Proof.
  apply (proj1 or_group_is_one_disjunction sample.User [("id", Int 1)] "f"
           [("gt", Int 5); ("in", List_ [Int 1])]); reflexivity.
Defined.

(** ** C6: [in], [not_in] and [between] need a tuple, a list or a set *)

(** C6.  For the operators [in], [not_in] and [between] the guard of the
    table raises the invalid-operator-value error when the value is not a
    tuple, a list or a set, and hands out the filter silently when it is.
    [parse_filters] fails with that error on a key [f__op] with such a
    value, whatever compiled before it, and no predicate is returned.  With
    a tuple, a list or a set the key compiles to one predicate: [in] and
    [not_in] take the value as their operand, [between] takes its two (or,
    with [symmetric], three) elements as operands.  [{"f__in": [1, 2, 3]}]
    compiles and [{"f__in": 5}] raises. *)
Theorem sequence_operators_need_tuple_list_or_set :
  (forall (op : string) (value : Value) (allow : bool),
      mem_str op sequence_operators = true ->
      (is_tuple_list_set value = false ->
       get_sqlalchemy_filter op value allow = ([], Raise (invalid_value_error op)))
      /\ (is_tuple_list_set value = true ->
          exists method,
            get _SUPPORTED_FILTERS op = Some method
            /\ get_sqlalchemy_filter op value allow = ([], Return (Some method))))
  /\ (forall (model : Model) (pre post : list (string * Value))
             (f op : string) (value : Value)
             (ws : list Warning) (fs : list ColumnElement),
         mem_str op sequence_operators = true ->
         mem_str f (model_columns model) = true ->
         parse_filters model pre = (ws, Return fs) ->
         is_tuple_list_set value = false ->
         parse_filters model (pre ++ ((f ++ "__" ++ op)%string, value) :: post)%list =
         (ws, Raise (invalid_value_error op)))
  /\ (forall (model : Model) (pre : list (string * Value))
             (f : string) (value : Value)
             (ws : list Warning) (fs : list ColumnElement),
         mem_str f (model_columns model) = true ->
         parse_filters model pre = (ws, Return fs) ->
         is_tuple_list_set value = true ->
         parse_filters model (pre ++ [((f ++ "__in")%string, value)])%list =
         (ws, Return (fs ++ [MethodCall (Column f) "in_" [value]])%list)
         /\ parse_filters model (pre ++ [((f ++ "__not_in")%string, value)])%list =
            (ws, Return (fs ++ [MethodCall (Column f) "not_in" [value]])%list)
         /\ (List.length (elements value) = 2 \/ List.length (elements value) = 3 ->
             parse_filters model (pre ++ [((f ++ "__between")%string, value)])%list =
             (ws, Return (fs ++ [MethodCall (Column f) "between" (elements value)])%list)))
  /\ parse_filters sample.User [("f__in", List_ [Int 1; Int 2; Int 3])] =
     ([], Return [MethodCall (Column "f") "in_" [List_ [Int 1; Int 2; Int 3]]])
  /\ parse_filters sample.User [("f__in", Int 5)] =
     ([], Raise (invalid_value_error "in")).
Proof.
  split; [|split; [|split; [|split; reflexivity]]].
  - intros op value allow Hop. split; intros Hvalue.
    + now apply get_sqlalchemy_filter_invalid_value.
    + destruct (get _SUPPORTED_FILTERS op) as [method|] eqn:Hget;
        [|now apply sequence_operators_known in Hop].
      exists method. split; [reflexivity|].
      apply get_sqlalchemy_filter_known; [exact Hget | now intros _ |].
      intros Ha. apply arithmetic_not_sequence in Ha. congruence.
  - intros model pre post f op value ws fs Hop Hf Hpre Hvalue.
    rewrite <- (app_nil_r ws).
    eapply parse_filters_raises; [exact Hpre|].
    destruct (sequence_operator_plain _ Hop) as [Hplain _].
    rewrite parse_filter_field_op by exact Hplain.
    rewrite get_column_found by exact Hf. returned.
    now rewrite get_sqlalchemy_filter_invalid_value.
  - intros model pre f value ws fs Hf Hpre Hvalue.
    assert (Hdict : is_dict value = false) by (destruct value; easy).
    split; [|split].
    + rewrite <- (app_nil_r ws).
      eapply parse_filters_snoc; [exact Hpre|].
      change (f ++ "__in") with (f ++ "__" ++ "in").
      rewrite parse_filter_field_op by reflexivity.
      rewrite get_column_found by exact Hf. returned.
      rewrite (@get_sqlalchemy_filter_known "in" "in_") by easy. returned.
      rewrite Hdict. reflexivity.
    + rewrite <- (app_nil_r ws).
      eapply parse_filters_snoc; [exact Hpre|].
      change (f ++ "__not_in") with (f ++ "__" ++ "not_in").
      rewrite parse_filter_field_op by reflexivity.
      rewrite get_column_found by exact Hf. returned.
      rewrite (@get_sqlalchemy_filter_known "not_in" "not_in") by easy. returned.
      rewrite Hdict. reflexivity.
    + intros Hbounds. rewrite <- (app_nil_r ws).
      eapply parse_filters_snoc; [exact Hpre|].
      change (f ++ "__between") with (f ++ "__" ++ "between").
      rewrite parse_filter_field_op by reflexivity.
      rewrite get_column_found by exact Hf. returned.
      rewrite (@get_sqlalchemy_filter_known "between" "between") by easy. returned.
      rewrite Hdict. cbn [String.eqb Ascii.eqb Bool.eqb andb].
      unfold operands. cbn [String.eqb Ascii.eqb Bool.eqb negb].
      assert (Hiter : iter value = Return (elements value))
        by (unfold elements; destruct value; easy).
      rewrite Hiter. unfold lift. returned.
      unfold apply_filter, call_method. cbn [String.eqb Ascii.eqb Bool.eqb].
      destruct (elements value) as [|b1 [|b2 [|b3 [|b4 bs]]]];
        cbn [List.length] in Hbounds; try lia; reflexivity.
Qed.

Lemma sequence_operators_need_tuple_list_or_set_witness :
  parse_filters sample.User
    ([("id", Int 1)] ++ [(("f" ++ "__between")%string, Tuple [Int 1; Int 5])])%list =
  ([], Return ([MethodCall (Column "id") "__eq__" [Int 1]]
               ++ [MethodCall (Column "f") "between" (elements (Tuple [Int 1; Int 5]))])%list)
  /\ parse_filters sample.User
       ([("id", Int 1)] ++ ((("f" ++ "__" ++ "not_in")%string, Str "ab") :: [("a", Int 2)]))%list =
     ([], Raise (invalid_value_error "not_in")).
Proof.
  split.
  - apply (proj1 (proj2 (proj2 sequence_operators_need_tuple_list_or_set))
             sample.User [("id", Int 1)] "f" (Tuple [Int 1; Int 5]));
      [reflexivity | reflexivity | reflexivity | left; reflexivity].
  - apply (proj1 (proj2 sequence_operators_need_tuple_list_or_set)
             sample.User [("id", Int 1)] [("a", Int 2)] "f" "not_in" (Str "ab")
             [] [MethodCall (Column "id") "__eq__" [Int 1]]); reflexivity.
Defined.

(** ** C3: operators the table lacks *)

(** The claim of C3 fails for [or]: the table has no entry for it, yet its
    key contributes a predicate.  It fails as well for an unknown operator
    whose value has the two-stage shape: the filter that is [None] is
    called. *)
Lemma absent_operator_still_contributes :
  get _SUPPORTED_FILTERS "or" = None
  /\ parse_filters sample.User [("f__or", Dict [("gt", Int 5)])] =
     ([unsupported_operator_warning "or"],
      Return [or_ [MethodCall (Column "f") "__gt__" [Int 5]]])
  /\ parse_filters sample.User [] = ([], Return [])
  /\ outcome_of (parse_filters sample.User [("f__or", Dict [("gt", Int 5)])])
     <> outcome_of (parse_filters sample.User []).
Proof. repeat split; try reflexivity. discriminate. Qed.

Example unknown_operator_with_two_stage_value_raises :
  get _SUPPORTED_FILTERS "frobnicate" = None
  /\ parse_filters sample.User
       [("f__frobnicate", Dict [("value", Int 1); ("condition", Dict [("gt", Int 1)])])] =
     ([unsupported_operator_warning "frobnicate"], Raise TypeError)
  /\ parse_filters sample.User
       [("f__frobnicate", Dict [("value", Int 1); ("condition", Dict [])])] =
     ([unsupported_operator_warning "frobnicate"], Return [and_ []]).
Proof. repeat split. Qed.

(** C3, amended.  Take a filter mapping with a key whose operator, the part
    after the last delimiter, is neither in the table nor [or], whose field
    is a column of the model, and whose value is not a mapping that holds
    both [value] and [condition].  Then [parse_filters] ends as it does for
    the mapping without that key, with the same predicate list or the same
    exception, and when the pairs before the key compile its warnings are
    those of the mapping without the key with one unsupported-operator
    warning for the key added in its place. *)
Theorem unknown_operator_warns_and_contributes_nothing :
  forall (model : Model) (pre post : list (string * Value))
         (key field_name op : string) (value : Value),
    rsplit1 "__" key = [field_name; op] ->
    get _SUPPORTED_FILTERS op = None ->
    op <> "or" ->
    mem_str field_name (model_columns model) = true ->
    is_dict value && issubset ["value"; "condition"] value = false ->
    outcome_of (parse_filters model (pre ++ (key, value) :: post)%list) =
    outcome_of (parse_filters model (pre ++ post)%list)
    /\ (forall (ws : list Warning) (fs : list ColumnElement),
           parse_filters model pre = (ws, Return fs) ->
           exists after,
             warnings_of (parse_filters model (pre ++ post)%list) =
             (ws ++ after)%list
             /\ warnings_of (parse_filters model (pre ++ (key, value) :: post)%list) =
                (ws ++ unsupported_operator_warning op :: after)%list).
Proof.
  intros model pre post key field_name op value Hsplit Hop Hor Hf Hshape.
  assert (Hkey : contains "__" key = true)
    by (rewrite (rsplit1_join _ _ Hsplit); apply contains_app).
  assert (Hpair : parse_filter model key value =
                  ([unsupported_operator_warning op], Return [])).
  { rewrite (parse_filter_delimited model _ value Hkey Hsplit).
    rewrite get_column_found by exact Hf. returned.
    rewrite get_sqlalchemy_filter_unknown by exact Hop.
    destruct (String.eqb_spec op "or") as [E | _]; [contradiction|].
    rewrite Hshape. reflexivity. }
  destruct (parse_filters_skips model pre post _ _ Hpair) as [Hsame Hwarn].
  split; [exact Hsame|].
  intros ws fs Hpre. destruct (Hwarn ws fs Hpre) as [Hwith Hwithout].
  exists (warnings_of (parse_filters_from model fs post)). now split.
Qed.

Lemma unknown_operator_warns_and_contributes_nothing_witness :
  outcome_of (parse_filters sample.User
                ([("id", Int 1)] ++ ("f__frobnicate", Int 3) :: [("a__gt", Int 2)])%list) =
  outcome_of (parse_filters sample.User ([("id", Int 1)] ++ [("a__gt", Int 2)])%list)
  /\ (forall (ws : list Warning) (fs : list ColumnElement),
         parse_filters sample.User [("id", Int 1)] = (ws, Return fs) ->
         exists after,
           warnings_of (parse_filters sample.User
                          ([("id", Int 1)] ++ [("a__gt", Int 2)])%list) =
           (ws ++ after)%list
           /\ warnings_of (parse_filters sample.User
                             ([("id", Int 1)] ++ ("f__frobnicate", Int 3)
                                :: [("a__gt", Int 2)])%list) =
              (ws ++ unsupported_operator_warning "frobnicate" :: after)%list).
Proof.
  apply (@unknown_operator_warns_and_contributes_nothing sample.User
           [("id", Int 1)] [("a__gt", Int 2)] "f__frobnicate" "f" "frobnicate" (Int 3)).
  - reflexivity.
  - reflexivity.
  - discriminate.
  - reflexivity.
  - reflexivity.
Defined.

(** ** C4: the two-stage value of an arithmetic key *)

(** The claim of C4 fails where the guard of the table refuses an entry of
    [condition]: no predicate is appended, and an arithmetic operator that
    comes after such an entry is not what the error names. *)
Lemma two_stage_value_with_refused_condition_raises :
  parse_filters sample.User
    [("f__mul", Dict [("value", Int 2); ("condition", Dict [("in", Int 5)])])] =
  ([], Raise (invalid_value_error "in"))
  /\ parse_filters sample.User
       [("f__mul", Dict [("value", Int 2);
                         ("condition", Dict [("in", Int 5); ("add", Int 1)])])] =
     ([], Raise (invalid_value_error "in"))
  /\ invalid_value_error "in" <> nested_arithmetic_error "add".
Proof. repeat split. discriminate. Qed.

(** An operator of [condition] that the table lacks warns, and its filter,
    which is [None], is called. *)
Example two_stage_value_with_unknown_condition_raises :
  parse_filters sample.User
    [("f__mul", Dict [("value", Int 2); ("condition", Dict [("frobnicate", Int 5)])])] =
  ([unsupported_operator_warning "frobnicate"], Raise TypeError).
Proof. reflexivity. Qed.

(** C4, amended.  Take a key [f__aop] of a column [f] with an arithmetic
    operator [aop] and a value that maps [value] to an operand and
    [condition] to a mapping.  When every entry of the condition is a
    comparison (an operator of the table that is not arithmetic, with a
    tuple, list or set for [in], [not_in] and [between], and two or three
    bounds for [between]), [parse_filters] appends exactly one predicate,
    the conjunction over the entries of the comparison of the arithmetic
    expression [f aop value] by the entry's operator and operand.  When the
    first entry that is not such a comparison has an arithmetic operator,
    compilation fails with the nested-arithmetic error naming it.
    [{"f__mul": {"value": 2, "condition": {"gt": 10}}}] yields the one
    predicate [(f * 2) > 10]. *)
Theorem two_stage_value_is_one_conjunction :
  (forall (model : Model) (pre : list (string * Value)) (f aop method : string)
          (d : list (string * Value)) (advanced_value : Value)
          (condition : list (string * Value))
          (ws : list Warning) (fs : list ColumnElement),
      mem_str aop arithmetic_operators = true ->
      get _SUPPORTED_FILTERS aop = Some method ->
      mem_str f (model_columns model) = true ->
      parse_filters model pre = (ws, Return fs) ->
      get d "value" = Some advanced_value ->
      get d "condition" = Some (Dict condition) ->
      (forallb comparison_accepted condition = true ->
       parse_filters model (pre ++ [((f ++ "__" ++ aop)%string, Dict d)])%list =
       (ws, Return (fs ++ [and_ (comparisons
                                   (MethodCall (Column f) method [advanced_value])
                                   condition)])%list))
      /\ (forall (before after post : list (string * Value))
                 (op : string) (value : Value),
             condition = (before ++ (op, value) :: after)%list ->
             forallb comparison_accepted before = true ->
             mem_str op arithmetic_operators = true ->
             parse_filters model (pre ++ ((f ++ "__" ++ aop)%string, Dict d) :: post)%list =
             (ws, Raise (nested_arithmetic_error op))))
  /\ parse_filters sample.User
       [("f__mul", Dict [("value", Int 2); ("condition", Dict [("gt", Int 10)])])] =
     ([], Return [and_ [MethodCall (MethodCall (Column "f") "__mul__" [Int 2])
                          "__gt__" [Int 10]]])
  /\ parse_filters sample.User
       [("f__mul", Dict [("value", Int 2); ("condition", Dict [("add", Int 1)])])] =
     ([], Raise (nested_arithmetic_error "add")).
Proof.
  split; [|split; reflexivity].
  intros model pre f aop method d advanced_value condition ws fs
         Haop Hmethod Hf Hpre Hvalue Hcondition.
  destruct (arithmetic_operator_plain _ Haop) as [Hplain Hor].
  assert (Hm : String.eqb method "between" = false).
  { rewrite (between_method _ Hmethod).
    destruct (String.eqb_spec aop "between") as [-> | _];
      [discriminate | reflexivity]. }
  assert (Hpair : parse_filter model (f ++ "__" ++ aop) (Dict d) =
                  (fs' <- condition_filters (Some method) (Column f)
                            advanced_value condition ;;
                   ret [and_ fs'])).
  { rewrite parse_filter_field_op by exact Hplain.
    rewrite get_column_found by exact Hf. returned.
    rewrite (@get_sqlalchemy_filter_known aop method (Dict d) true Hmethod);
      [|intros Hs; apply arithmetic_not_sequence in Haop; congruence
       |reflexivity].
    returned. rewrite Hor.
    unfold issubset. cbn [is_dict iter forallb andb].
    rewrite (get_issubset _ _ Hvalue), (get_issubset _ _ Hcondition).
    cbn [andb getitem]. rewrite Hvalue, Hcondition. unfold lift.
    returned. returned. cbn [items]. returned. reflexivity. }
  split.
  - intros Hcomparisons. rewrite <- (app_nil_r ws).
    eapply parse_filters_snoc; [exact Hpre|].
    rewrite Hpair, condition_filters_accepted by assumption.
    reflexivity.
  - intros before after post op value -> Hbefore Hop.
    rewrite <- (app_nil_r ws).
    eapply parse_filters_raises; [exact Hpre|].
    rewrite Hpair.
    now rewrite condition_filters_nested by assumption.
Qed.

Lemma two_stage_value_is_one_conjunction_witness :
  parse_filters sample.User
    ([("id", Int 1)]
       ++ [(("f" ++ "__" ++ "sub")%string,
            Dict [("value", Int 2);
                  ("condition", Dict [("ge", Int 0); ("between", List_ [Int 1; Int 9])])])])%list =
  ([], Return ([MethodCall (Column "id") "__eq__" [Int 1]]
               ++ [and_ (comparisons (MethodCall (Column "f") "__sub__" [Int 2])
                           [("ge", Int 0); ("between", List_ [Int 1; Int 9])])])%list).
Proof.
  apply (proj1 two_stage_value_is_one_conjunction sample.User [("id", Int 1)]
           "f" "sub" "__sub__"
           [("value", Int 2);
            ("condition", Dict [("ge", Int 0); ("between", List_ [Int 1; Int 9])])]
           (Int 2) [("ge", Int 0); ("between", List_ [Int 1; Int 9])]);
    reflexivity.
Defined.

(** ** Sorting *)

Section Sorting.
Variable model : Model.

Lemma ordered_nil (stmt : Select) : ordered stmt [] = stmt.
Proof. destruct stmt. unfold ordered. cbn. now rewrite app_nil_r. Qed.

Lemma ordered_order_by (stmt : Select) (clause : UnaryExpression)
    (clauses : list UnaryExpression) :
  ordered (order_by stmt clause) clauses = ordered stmt (clause :: clauses).
Proof. unfold ordered, order_by. cbn. now rewrite <- app_assoc. Qed.

(** The loop over the pairs: it stops at the first name that is not a
    column, and appends a clause for every pair otherwise. *)
Lemma order_by_each_spec (stmt : Select) (pairs : list (string * string)) :
  order_by_each model stmt pairs =
  match first_missing model (map fst pairs) with
  | Some name => ([], Raise (column_not_found model name))
  | None => ([], Return (ordered stmt (map ordering pairs)))
  end.
Proof.
  revert stmt; induction pairs as [|[column_name order] rest IH]; intros stmt.
  - cbn. now rewrite ordered_nil.
  - cbn [order_by_each map fst first_missing find].
    destruct (mem_str column_name (model_columns model)) eqn:Hc; cbn [negb].
    + rewrite get_column_found by exact Hc. returned.
      rewrite IH. fold (first_missing model (map fst rest)).
      destruct (first_missing model (map fst rest)); [reflexivity|].
      now rewrite ordered_order_by.
    + now rewrite get_column_missing by exact Hc.
Qed.

Lemma first_missing_none (names : list string) :
  (forall name, In name names -> mem_str name (model_columns model) = true) ->
  first_missing model names = None.
Proof.
  intros Hall. unfold first_missing.
  destruct (find _ names) as [name|] eqn:Hfind; [|reflexivity].
  apply find_some in Hfind as [Hin Hmissing].
  rewrite (Hall _ Hin) in Hmissing. discriminate.
Qed.

Lemma combine_repeat (names : list string) (order : string) :
  combine names (repeat order (List.length names)) =
  map (fun name => (name, order)) names.
Proof. induction names as [|name rest IH]; cbn; [|rewrite IH]; reflexivity. Qed.

Lemma map_fst_combine (names orders : list string) :
  List.length names = List.length orders ->
  map fst (combine names orders) = names.
Proof.
  revert orders; induction names as [|name rest IH]; intros [|order orders];
    cbn; try discriminate; [reflexivity|].
  intros [= Hlen]. now rewrite IH.
Qed.

End Sorting.

(** ** C8: the errors of [apply_sorting] and its default direction *)

(** An exception that the computation cannot end with. *)
Ltac no_such_error :=
  split;
  [ intros [msg H]; discriminate H
  | intros H; decompose [and] H; congruence ].

(** C8.  An argument counts as supplied when it is true in Python's sense:
    not [None], not the empty string, not the empty list.  [apply_sorting]
    raises [ValueError] exactly when sort orders are supplied and sort
    columns are not; it raises [ColumnSortError] exactly when both are
    supplied and, a single string counting as a list of one, their numbers
    differ; and when sort orders are absent it behaves as if every column
    had been given the direction [asc], so that every column that resolves
    gets an ascending clause. *)
Theorem apply_sorting_errors_and_default :
  (forall (model : Model) (stmt : Select) (sort_columns sort_orders : SortArg),
      ((exists msg, outcome_of (apply_sorting model stmt sort_columns sort_orders)
                    = Raise (ValueError msg))
       <-> truthy sort_orders = true /\ truthy sort_columns = false)
      /\ ((exists msg, outcome_of (apply_sorting model stmt sort_columns sort_orders)
                       = Raise (ColumnSortError msg))
          <-> truthy sort_columns = true /\ truthy sort_orders = true
              /\ List.length (as_list sort_columns) <> List.length (as_list sort_orders))
      /\ (truthy sort_orders = false ->
          truthy sort_columns = true ->
          apply_sorting model stmt sort_columns sort_orders =
          apply_sorting model stmt sort_columns
            (Names (repeat "asc" (List.length (as_list sort_columns))))
          /\ ((forall name, In name (as_list sort_columns) ->
                            mem_str name (model_columns model) = true) ->
              apply_sorting model stmt sort_columns sort_orders =
              ([], Return (ordered stmt (map (fun name => asc (Column name))
                                             (as_list sort_columns)))))))
  /\ apply_sorting sample.User sample.query (Names ["a"; "f"]) (Names ["asc"]) =
     ([], Raise (ColumnSortError
                   "The length of sort_columns and sort_orders must match."))
  /\ apply_sorting sample.User sample.query NoSort (Names ["asc"]) =
     ([], Raise (ValueError
                   "Sort orders provided without corresponding sort columns."))
  /\ apply_sorting sample.User sample.query (OneName "a") (Names ["asc"; "desc"]) =
     ([], Raise (ColumnSortError
                   "The length of sort_columns and sort_orders must match."))
  /\ apply_sorting sample.User sample.query (Names ["a"; "f"]) NoSort =
     ([], Return (ordered sample.query [asc (Column "a"); asc (Column "f")])).
Proof.
  split; [|repeat split].
  intros model stmt sort_columns sort_orders.
  unfold apply_sorting.
  destruct (truthy sort_orders) eqn:Horders, (truthy sort_columns) eqn:Hcolumns;
    cbn [andb negb].
  - (* both supplied *)
    destruct (Nat.eqb_spec (List.length (as_list sort_columns))
                           (List.length (as_list sort_orders))) as [Hlen | Hlen];
      cbn [negb].
    + unfold ret. returned. rewrite order_by_each_spec.
      destruct (first_missing model _); cbn [outcome_of snd];
        (split; [no_such_error | split; [no_such_error | intros H; discriminate H]]).
    + cbn [bind raise outcome_of snd]. split; [|split].
      * no_such_error.
      * split; [intros _; now repeat split | intros _; eauto].
      * intros H; discriminate H.
  - (* orders without columns *)
    cbn [raise outcome_of snd]. split; [|split].
    + split; [intros _; now split | intros _; eauto].
    + no_such_error.
    + intros H; discriminate H.
  - (* columns only *)
    unfold ret. returned. split; [|split].
    + rewrite order_by_each_spec.
      destruct (first_missing model _); no_such_error.
    + rewrite order_by_each_spec.
      destruct (first_missing model _); no_such_error.
    + intros _ _.
      assert (Hdefault : truthy (Names (repeat "asc" (List.length (as_list sort_columns))))
                         = true).
      { destruct sort_columns as [|s|[|name rest]]; try discriminate; reflexivity. }
      rewrite Hdefault. cbn [as_list]. rewrite repeat_length, Nat.eqb_refl.
      cbn [negb]. unfold ret. returned. split; [reflexivity|].
      intros Hresolve. rewrite order_by_each_spec, combine_repeat.
      rewrite map_map. cbn [fst]. rewrite map_id.
      rewrite (first_missing_none _ _ Hresolve).
      rewrite map_map. reflexivity.
  - (* neither *)
    cbn [ret outcome_of snd]. split; [|split].
    + no_such_error.
    + no_such_error.
    + intros _ H; discriminate H.
Qed.

Lemma apply_sorting_errors_and_default_witness :
  apply_sorting sample.User sample.query (OneName "f") (OneName EmptyString) =
  apply_sorting sample.User sample.query (OneName "f")
    (Names (repeat "asc" (List.length (as_list (OneName "f")))))
  /\ ((forall name, In name (as_list (OneName "f")) ->
                    mem_str name (model_columns sample.User) = true) ->
      apply_sorting sample.User sample.query (OneName "f") (OneName EmptyString) =
      ([], Return (ordered sample.query (map (fun name => asc (Column name))
                                             (as_list (OneName "f")))))).
Proof.
  apply (proj2 (proj2 (proj1 apply_sorting_errors_and_default
                         sample.User sample.query (OneName "f") (OneName EmptyString))));
    reflexivity.
Defined.

(** ** C10: any direction but [asc] sorts descending *)

Lemma nth_error_combine (names orders : list string) (i : nat)
    (name order : string) :
  nth_error names i = Some name ->
  nth_error orders i = Some order ->
  nth_error (combine names orders) i = Some (name, order).
Proof.
  revert orders i; induction names as [|n names IH]; intros [|o orders] [|i];
    cbn; try discriminate.
  - now intros [= ->] [= ->].
  - apply IH.
Qed.

(** C10.  In [apply_sorting] the direction of a column is only compared
    with ['asc']: when columns and directions are supplied in equal number
    and the columns resolve, the clause of a column is ascending for the
    direction ['asc'] and descending for any other string, ['desc'] as well
    as ['ASC'] or ['ascending'].  Directions are not validated: replacing
    the directions by any others, in the same number, changes neither
    whether the call raises nor the exception it raises.  (An empty string
    inside a list is a direction like any other; sort orders that are
    empty as a whole, [''] alone or the empty list, count as absent.) *)
Theorem direction_other_than_asc_is_descending :
  (forall (model : Model) (stmt : Select) (sort_columns sort_orders : SortArg),
      truthy sort_columns = true ->
      truthy sort_orders = true ->
      List.length (as_list sort_columns) = List.length (as_list sort_orders) ->
      (forall name, In name (as_list sort_columns) ->
                    mem_str name (model_columns model) = true) ->
      exists clauses,
        apply_sorting model stmt sort_columns sort_orders =
        ([], Return (ordered stmt clauses))
        /\ List.length clauses = List.length (as_list sort_columns)
        /\ forall (i : nat) (name order : string),
             nth_error (as_list sort_columns) i = Some name ->
             nth_error (as_list sort_orders) i = Some order ->
             (order = "asc" -> nth_error clauses i = Some (asc (Column name)))
             /\ (order <> "asc" -> nth_error clauses i = Some (desc (Column name))))
  /\ (forall (model : Model) (stmt : Select)
             (sort_columns orders1 orders2 : SortArg) (e : Exception),
         truthy orders1 = truthy orders2 ->
         List.length (as_list orders1) = List.length (as_list orders2) ->
         outcome_of (apply_sorting model stmt sort_columns orders1) = Raise e
         <-> outcome_of (apply_sorting model stmt sort_columns orders2) = Raise e)
  /\ apply_sorting sample.User sample.query
       (Names ["a"; "f"; "id"; "a__b"; "del_flag"])
       (Names ["ASC"; "ascending"; "desc"; "asc"; EmptyString]) =
     ([], Return (ordered sample.query
                    [desc (Column "a"); desc (Column "f"); desc (Column "id");
                     asc (Column "a__b"); desc (Column "del_flag")])).
Proof.
  split; [|split; [|reflexivity]].
  - intros model stmt sort_columns sort_orders Hcolumns Horders Hlen Hresolve.
    exists (map ordering (combine (as_list sort_columns) (as_list sort_orders))).
    split; [|split].
    + unfold apply_sorting. rewrite Hcolumns, Horders. cbn [andb negb].
      rewrite Hlen, Nat.eqb_refl. cbn [negb]. unfold ret. returned.
      rewrite order_by_each_spec, map_fst_combine by (now rewrite Hlen).
      now rewrite (first_missing_none _ _ Hresolve).
    + rewrite length_map, length_combine, <- Hlen. apply Nat.min_id.
    + intros i name order Hname Horder.
      rewrite nth_error_map, (nth_error_combine _ _ _ Hname Horder).
      cbn [option_map]. unfold ordering. cbn [fst snd].
      destruct (String.eqb_spec order "asc") as [E | E]; split; congruence.
  - intros model stmt sort_columns orders1 orders2 e Htruthy Hlen.
    unfold apply_sorting. rewrite <- Htruthy, <- Hlen.
    destruct (truthy orders1), (truthy sort_columns);
      cbn [andb negb]; try reflexivity.
    destruct (Nat.eqb_spec (List.length (as_list sort_columns))
                           (List.length (as_list orders1))) as [Hsame | Hdiff];
      cbn [negb]; [|reflexivity].
    unfold ret. returned. returned.
    rewrite !order_by_each_spec, !map_fst_combine by congruence.
    destruct (first_missing model (as_list sort_columns)); cbn [outcome_of snd];
      [reflexivity | split; discriminate].
Qed.

Lemma direction_other_than_asc_is_descending_witness :
  exists clauses,
    apply_sorting sample.User sample.query (Names ["a"; "f"]) (Names ["ASC"; "asc"]) =
    ([], Return (ordered sample.query clauses))
    /\ List.length clauses = List.length (as_list (Names ["a"; "f"]))
    /\ forall (i : nat) (name order : string),
         nth_error (as_list (Names ["a"; "f"])) i = Some name ->
         nth_error (as_list (Names ["ASC"; "asc"])) i = Some order ->
         (order = "asc" -> nth_error clauses i = Some (asc (Column name)))
         /\ (order <> "asc" -> nth_error clauses i = Some (desc (Column name))).
Proof.
  apply (proj1 direction_other_than_asc_is_descending
           sample.User sample.query (Names ["a"; "f"]) (Names ["ASC"; "asc"])).
  - reflexivity.
  - reflexivity.
  - reflexivity.
  - intros name [<- | [<- | []]]; reflexivity.
Defined.

(** ** C1: the guard against several rows *)

Section Guard.
Context {Database : Type} `{Engine Database}.

(** [count] runs one query and changes no row. *)
Lemma count_spec (model : Model) (filters : list ColumnElement)
    (session : Session Database) :
  count model filters session =
  (counted session model filters, ([], Return (matched model filters session))).
Proof.
  unfold count, io_bind, io_execute, io_ret, counted, scalar_or_0, matched.
  destruct filters; reflexivity.
Qed.

(** The facade up to its guard. *)
Lemma update_model_by_column_guard (self : CRUDPlus) (obj : UpdateObject)
    (allow_multiple commit : bool) (kwargs : list (string * Value))
    (session : Session Database) (ws : list Warning)
    (filters : list ColumnElement) :
  parse_filters (model self) kwargs = (ws, Return filters) ->
  update_model_by_column self obj allow_multiple commit kwargs session =
  let total_count := matched (model self) filters session in
  let session1 := counted session (model self) filters in
  if negb allow_multiple && (1 <? total_count)%Z then
    (session1, (ws, Raise (multiple_update_error total_count)))
  else
    let stmt := Update (model self) filters (instance_data_of obj) in
    let session2 := fst (AsyncSession.execute stmt session1) in
    (if commit then AsyncSession.commit session2 else session2,
     (ws, Return (rowcount (snd (AsyncSession.execute stmt session1))))).
Proof.
  intros Hparse. unfold update_model_by_column.
  unfold io_bind at 1. unfold io_lift at 1. rewrite Hparse.
  unfold io_bind at 1. rewrite count_spec. cbv zeta.
  destruct (negb allow_multiple && (1 <? matched (model self) filters session)%Z).
  - unfold io_lift, raise. now rewrite !app_nil_r.
  - unfold io_bind, io_execute, _commit_if_needed, io_commit, io_ret, ret.
    destruct (AsyncSession.execute _ _) as [session2 result]. cbn [fst snd].
    destruct commit; now rewrite !app_nil_r.
Qed.

Lemma delete_model_by_column_guard (self : CRUDPlus)
    (allow_multiple logical_deletion : bool) (deleted_flag_column : string)
    (commit : bool) (kwargs : list (string * Value))
    (session : Session Database) (ws : list Warning)
    (filters : list ColumnElement) :
  parse_filters (model self) kwargs = (ws, Return filters) ->
  delete_model_by_column self allow_multiple logical_deletion
    deleted_flag_column commit kwargs session =
  let total_count := matched (model self) filters session in
  let session1 := counted session (model self) filters in
  if negb allow_multiple && (1 <? total_count)%Z then
    (session1, (ws, Raise (multiple_delete_error total_count)))
  else
    let stmt :=
      if logical_deletion
      then Update (model self) filters [(deleted_flag_column, Bool_ true)]
      else Delete (model self) filters in
    let session2 := fst (AsyncSession.execute stmt session1) in
    (if commit then AsyncSession.commit session2 else session2,
     (ws, Return total_count)).
Proof.
  intros Hparse. unfold delete_model_by_column.
  unfold io_bind at 1. unfold io_lift at 1. rewrite Hparse.
  unfold io_bind at 1. rewrite count_spec. cbv zeta.
  destruct (negb allow_multiple && (1 <? matched (model self) filters session)%Z).
  - unfold io_lift, raise. now rewrite !app_nil_r.
  - unfold io_bind, io_execute, _commit_if_needed, io_commit, io_ret, ret.
    destruct (AsyncSession.execute _ _) as [session2 result]. cbn [fst snd].
    destruct commit; now rewrite !app_nil_r.
Qed.

Lemma delete_model_spec (self : CRUDPlus) (pk : Value) (commit : bool)
    (session : Session Database) :
  delete_model self pk commit session =
  let stmt := Delete (model self) [MethodCall (primary_key self) "__eq__" [pk]] in
  let session1 := fst (AsyncSession.execute stmt session) in
  (if commit then AsyncSession.commit session1 else session1,
   ([], Return (rowcount (snd (AsyncSession.execute stmt session))))).
Proof.
  unfold delete_model, io_bind, io_lift, io_execute, _commit_if_needed,
    io_commit, io_ret, pk_equals, lift, ret. cbn [call_method String.eqb Ascii.eqb Bool.eqb].
  cbv zeta. destruct (AsyncSession.execute _ _) as [session1 result].
  cbn [fst snd]. destruct commit; reflexivity.
Qed.

Lemma execute_mutation_rowcount (stmt : Statement) (session : Session Database) :
  is_mutation stmt = true ->
  rowcount (snd (AsyncSession.execute stmt session)) = reported stmt session.
Proof.
  unfold reported. destruct stmt; [discriminate| |]; intros _; cbn;
    now destruct (mutate _ _).
Qed.

End Guard.

(** C1.  Take a call of [update_model_by_column] or
    [delete_model_by_column] with [allow_multiple=False] whose filters
    compile and match more than one row, the count being the one the count
    query reports.  The call raises [MultipleResultsError]; the only
    statement it has executed is the count query, so no update and no delete
    was executed; and the rows, those of the transaction and those
    committed, are the ones from before the call. *)
Theorem guard_raises_before_any_mutation :
  forall (Database : Type) (engine : Engine Database) (self : CRUDPlus)
         (obj : UpdateObject) (logical_deletion : bool)
         (deleted_flag_column : string) (commit : bool)
         (kwargs : list (string * Value)) (session : Session Database)
         (ws : list Warning) (filters : list ColumnElement),
    parse_filters (model self) kwargs = (ws, Return filters) ->
    (1 < matched (model self) filters session)%Z ->
    (exists session',
        update_model_by_column self obj false commit kwargs session =
        (session',
         (ws, Raise (multiple_update_error (matched (model self) filters session))))
        /\ database session' = database session
        /\ committed session' = committed session
        /\ executed session' =
           (executed session ++ [SelectCount (model self) filters])%list
        /\ (forall stmt, In stmt (executed session') ->
                         In stmt (executed session) \/ is_mutation stmt = false))
    /\ (exists session',
           delete_model_by_column self false logical_deletion
             deleted_flag_column commit kwargs session =
           (session',
            (ws, Raise (multiple_delete_error (matched (model self) filters session))))
           /\ database session' = database session
           /\ committed session' = committed session
           /\ executed session' =
              (executed session ++ [SelectCount (model self) filters])%list
           /\ (forall stmt, In stmt (executed session') ->
                            In stmt (executed session) \/ is_mutation stmt = false)).
Proof.
  intros Database engine self obj logical_deletion deleted_flag_column commit
         kwargs session ws filters Hparse Hmany.
  apply Z.ltb_lt in Hmany.
  assert (Hlog : forall stmt,
             In stmt (executed (counted session (model self) filters)) ->
             In stmt (executed session) \/ is_mutation stmt = false).
  { intros stmt Hin. cbn [counted executed] in Hin.
    apply in_app_or in Hin as [Hin | [<- | []]]; [now left | now right]. }
  split.
  - exists (counted session (model self) filters).
    rewrite (update_model_by_column_guard _ _ _ _ _ _ Hparse).
    cbv zeta. rewrite Hmany. cbn [negb andb]. now repeat split.
  - exists (counted session (model self) filters).
    rewrite (delete_model_by_column_guard _ _ _ _ _ _ _ Hparse).
    cbv zeta. rewrite Hmany. cbn [negb andb]. now repeat split.
Qed.

Lemma guard_raises_before_any_mutation_witness :
  (exists session',
      update_model_by_column sample.users (PlainDict [("f", Int 0)]) false true
        [("f", Int 7)] sample.session =
      (session',
       ([], Raise (multiple_update_error
                     (matched (model sample.users)
                        [MethodCall (Column "f") "__eq__" [Int 7]] sample.session))))
      /\ database session' = database sample.session
      /\ committed session' = committed sample.session
      /\ executed session' =
         (executed sample.session
            ++ [SelectCount (model sample.users)
                  [MethodCall (Column "f") "__eq__" [Int 7]]])%list
      /\ (forall stmt, In stmt (executed session') ->
                       In stmt (executed sample.session) \/ is_mutation stmt = false))
  /\ (exists session',
         delete_model_by_column sample.users false false "del_flag" true
           [("f", Int 7)] sample.session =
         (session',
          ([], Raise (multiple_delete_error
                        (matched (model sample.users)
                           [MethodCall (Column "f") "__eq__" [Int 7]] sample.session))))
         /\ database session' = database sample.session
         /\ committed session' = committed sample.session
         /\ executed session' =
            (executed sample.session
               ++ [SelectCount (model sample.users)
                     [MethodCall (Column "f") "__eq__" [Int 7]]])%list
         /\ (forall stmt, In stmt (executed session') ->
                          In stmt (executed sample.session) \/ is_mutation stmt = false)).
Proof.
  apply (@guard_raises_before_any_mutation (list sample.Row)
           sample.changed_rows_engine sample.users (PlainDict [("f", Int 0)])
           false "del_flag" true [("f", Int 7)] sample.session []
           [MethodCall (Column "f") "__eq__" [Int 7]]).
  - reflexivity.
  - reflexivity.
Defined.

(** ** C2: what the mutations return *)

(** C2.  When the filters compile and the guard lets the call through,
    [delete_model_by_column] returns the number of rows that the count
    query of the guard reported before the mutation, for a physical and for
    a logical deletion alike, whereas [update_model_by_column] returns the
    row count that the engine reports for the executed update, and
    [delete_model] the row count that the engine reports for the executed
    delete.  On an engine that reports the rows it changed, a logical
    deletion of two matched rows of which one is flagged already returns 2
    where the update of the same rows returns 1. *)
Theorem returned_row_counts :
  (forall (Database : Type) (engine : Engine Database) (self : CRUDPlus)
          (obj : UpdateObject) (allow_multiple logical_deletion : bool)
          (deleted_flag_column : string) (commit : bool)
          (kwargs : list (string * Value)) (pk : Value)
          (session : Session Database)
          (ws : list Warning) (filters : list ColumnElement),
      parse_filters (model self) kwargs = (ws, Return filters) ->
      allow_multiple = true \/ (matched (model self) filters session <= 1)%Z ->
      snd (delete_model_by_column self allow_multiple logical_deletion
             deleted_flag_column commit kwargs session) =
      (ws, Return (matched (model self) filters session))
      /\ snd (update_model_by_column self obj allow_multiple commit kwargs session) =
         (ws, Return (reported (Update (model self) filters (instance_data_of obj))
                        session))
      /\ snd (delete_model self pk commit session) =
         ([], Return (reported
                        (Delete (model self)
                           [MethodCall (primary_key self) "__eq__" [pk]])
                        session)))
  /\ snd (delete_model_by_column sample.users true true "del_flag" false
            [("f", Int 7)] sample.session) = ([], Return 2%Z)
  /\ snd (update_model_by_column sample.users (PlainDict [("del_flag", Bool_ true)])
            true false [("f", Int 7)] sample.session) = ([], Return 1%Z)
  /\ snd (delete_model sample.users (Int 3) true sample.session) = ([], Return 1%Z).
Proof.
  split; [|repeat split].
  intros Database engine self obj allow_multiple logical_deletion
         deleted_flag_column commit kwargs pk session ws filters Hparse Hguard.
  assert (Hpass : negb allow_multiple
                  && (1 <? matched (model self) filters session)%Z = false).
  { destruct Hguard as [-> | Hle]; [reflexivity|].
    apply Z.ltb_ge in Hle. rewrite Hle. apply andb_false_r. }
  split; [|split].
  - rewrite (delete_model_by_column_guard _ _ _ _ _ _ _ Hparse).
    cbv zeta. now rewrite Hpass.
  - rewrite (update_model_by_column_guard _ _ _ _ _ _ Hparse).
    cbv zeta. rewrite Hpass. cbn [snd].
    now rewrite execute_mutation_rowcount.
  - rewrite delete_model_spec. cbv zeta. cbn [snd].
    now rewrite execute_mutation_rowcount.
Qed.

Lemma returned_row_counts_witness :
  snd (delete_model_by_column sample.users false false "del_flag" true
         [("id", Int 3)] sample.session) =
  ([], Return (matched (model sample.users)
                 [MethodCall (Column "id") "__eq__" [Int 3]] sample.session))
  /\ snd (update_model_by_column sample.users (Schema [("f", Int 1)]) false true
            [("id", Int 3)] sample.session) =
     ([], Return (reported (Update (model sample.users)
                              [MethodCall (Column "id") "__eq__" [Int 3]]
                              (instance_data_of (Schema [("f", Int 1)])))
                    sample.session))
  /\ snd (delete_model sample.users (Int 2) true sample.session) =
     ([], Return (reported
                    (Delete (model sample.users)
                       [MethodCall (primary_key sample.users) "__eq__" [Int 2]])
                    sample.session)).
Proof.
  apply (proj1 returned_row_counts (list sample.Row) sample.changed_rows_engine
           sample.users (Schema [("f", Int 1)]) false false "del_flag" true
           [("id", Int 3)] (Int 2) sample.session []
           [MethodCall (Column "id") "__eq__" [Int 3]]).
  - reflexivity.
  - right. cbv. discriminate.
Defined.

(** * Further properties of the code *)

(** ** Computations that warn and raise *)

Section Effects.
Context {A B : Type}.

(** What a sequence returns comes from both of its parts. *)
Lemma bind_returns (m : M A) (f : A -> M B) (ws : list Warning) (b : B) :
  bind m f = (ws, Return b) ->
  exists ws1 a ws2,
    m = (ws1, Return a) /\ f a = (ws2, Return b) /\ ws = (ws1 ++ ws2)%list.
Proof.
  destruct m as [ws1 [a | e]]; cbn [bind]; [|discriminate].
  destruct (f a) as [ws2 r] eqn:Hf. intros [= <- ->]. now exists ws1, a, ws2.
Qed.



End Effects.

(** ** The operator table and the keys *)

(** X1.  No operator name of the table holds the delimiter, and neither does
    [or]: a key made of any field name, the delimiter and such an operator
    is recognised as a delimited key and is split back into that field name
    and that operator, also when the field name itself holds delimiters or
    ends in an underscore. *)
Theorem table_operators_are_addressable :
  forall field_name op : string,
    In op (map fst _SUPPORTED_FILTERS) \/ op = "or" ->
    contains "__" (field_name ++ "__" ++ op) = true
    /\ rsplit1 "__" (field_name ++ "__" ++ op) = [field_name; op].
Proof.
  intros field_name op Hop. split; [apply contains_app|].
  apply rsplit1_last; [discriminate|].
  destruct Hop as [Hop | ->]; [|reflexivity].
  cbn in Hop.
  repeat (destruct Hop as [<- | Hop]; [reflexivity|]). destruct Hop.
Qed.

Lemma table_operators_are_addressable_witness :
  contains "__" ("a__b_" ++ "__" ++ "is_not_distinct_from") = true
  /\ rsplit1 "__" ("a__b_" ++ "__" ++ "is_not_distinct_from") =
     ["a__b_"; "is_not_distinct_from"].
Proof.
  apply (@table_operators_are_addressable "a__b_" "is_not_distinct_from").
  left. cbn. tauto.
Defined.

(** X2.  [get_sqlalchemy_filter] returns [None] exactly for the operators
    that the table lacks, and it warns exactly then, with the one warning
    that names the operator.  It raises exactly when a sequence operator
    gets a value that is not a tuple, list or set, or when an arithmetic
    operator is looked up with arithmetic disallowed; a filter it returns is
    the entry of the table. *)
Theorem get_sqlalchemy_filter_cases :
  forall (op : string) (value : Value) (allow : bool),
    (outcome_of (get_sqlalchemy_filter op value allow) = Return None
     <-> get _SUPPORTED_FILTERS op = None)
    /\ (warnings_of (get_sqlalchemy_filter op value allow) =
        match get _SUPPORTED_FILTERS op with
        | None => [unsupported_operator_warning op]
        | Some _ => []
        end)
    /\ ((exists e, outcome_of (get_sqlalchemy_filter op value allow) = Raise e)
        <-> (mem_str op sequence_operators = true
             /\ is_tuple_list_set value = false)
            \/ (mem_str op arithmetic_operators = true /\ allow = false))
    /\ (forall method,
           outcome_of (get_sqlalchemy_filter op value allow) = Return (Some method) ->
           get _SUPPORTED_FILTERS op = Some method).
Proof.
  intros op value allow.
  destruct (get _SUPPORTED_FILTERS op) as [method|] eqn:Hop.
  - (* an operator of the table *)
    unfold get_sqlalchemy_filter. rewrite Hop.
    destruct (mem_str op sequence_operators) eqn:Hs,
             (is_tuple_list_set value) eqn:Hv,
             (mem_str op arithmetic_operators) eqn:Ha,
             allow;
      cbn [andb negb raise ret outcome_of warnings_of fst snd];
      try (apply arithmetic_not_sequence in Ha; congruence);
      (split; [split; discriminate|]);
      (split; [reflexivity|]);
      (split; [|intros m [= <-]; reflexivity || (intros m H; discriminate H)]);
      (split;
       [ intros [e He]; try discriminate He; auto
       | intros [[H1 H2] | [H1 H2]]; try discriminate; eauto ]).
  - (* an operator that the table lacks *)
    rewrite get_sqlalchemy_filter_unknown by exact Hop.
    cbn [outcome_of warnings_of fst snd].
    split; [tauto|]. split; [reflexivity|]. split.
    + split; [intros [e He]; discriminate He|].
      intros [[Hs _] | [Ha _]].
      * now apply sequence_operators_known in Hs.
      * now apply arithmetic_operators_known in Ha.
    + intros m H; discriminate H.
Qed.

(** ** Keys without a delimiter *)



Lemma get_sqlalchemy_filter_cases_witness :
  get _SUPPORTED_FILTERS "gt" = Some "__gt__".
Proof.
  apply (proj2 (proj2 (proj2 (get_sqlalchemy_filter_cases "gt" (Int 1) true)))
           "__gt__").
  reflexivity.
Defined.

(** ** What compiling filters can do *)

Section Compilation.
















End Compilation.





(** ** Mappings put together *)

(** The loop started from filters already collected: they stay in front. *)
Lemma parse_filters_from_collected (model : Model) (acc : list ColumnElement)
    (kwargs : list (string * Value)) :
  parse_filters_from model acc kwargs =
  (warnings_of (parse_filters model kwargs),
   match outcome_of (parse_filters model kwargs) with
   | Return fs => Return (acc ++ fs)%list
   | Raise e => Raise e
   end).
Proof.
  unfold parse_filters.
  revert acc; induction kwargs as [|[key value] rest IH]; intros acc.
  - cbn. now rewrite app_nil_r.
  - cbn [parse_filters_from].
    destruct (parse_filter model key value) as [ws [fs | e]]; [|reflexivity].
    cbn [bind app]. rewrite (IH (acc ++ fs)%list), (IH fs).
    destruct (parse_filters_from model [] rest) as [ws' [fs' | e]];
      cbn [warnings_of outcome_of fst snd]; [|reflexivity].
    now rewrite app_assoc.
Qed.

(** X6.  Compiling two mappings one after the other is compiling their
    concatenation: when the first compiles, the warnings are those of the
    first followed by those of the second, and the predicates those of the
    first followed by those of the second, or the exception of the second;
    when the first raises, the second is never looked at. *)
Theorem parse_filters_of_concatenation :
  forall (model : Model) (first second : list (string * Value))
         (ws1 : list Warning),
    (forall fs1 ws2 r2,
        parse_filters model first = (ws1, Return fs1) ->
        parse_filters model second = (ws2, r2) ->
        parse_filters model (first ++ second)%list =
        ((ws1 ++ ws2)%list,
         match r2 with
         | Return fs2 => Return (fs1 ++ fs2)%list
         | Raise e => Raise e
         end))
    /\ (forall e,
           parse_filters model first = (ws1, Raise e) ->
           parse_filters model (first ++ second)%list = (ws1, Raise e)).
Proof.
  intros model first second ws1. split.
  - intros fs1 ws2 r2 Hfirst Hsecond. unfold parse_filters in *.
    rewrite parse_filters_from_app, Hfirst. cbn [bind].
    rewrite parse_filters_from_collected. unfold parse_filters.
    now rewrite Hsecond.
  - intros e Hfirst. unfold parse_filters in *.
    now rewrite parse_filters_from_app, Hfirst.
Qed.

Lemma parse_filters_of_concatenation_witness :
  parse_filters sample.User
    ([("id", Int 1); ("f__nope", Int 2)] ++ [("a__gt", Int 3); ("x", Int 0)])%list =
  (([unsupported_operator_warning "nope"] ++ [])%list,
   Raise (column_not_found sample.User "x")).
Proof.
  apply (proj1 (parse_filters_of_concatenation sample.User
                  [("id", Int 1); ("f__nope", Int 2)]
                  [("a__gt", Int 3); ("x", Int 0)]
                  [unsupported_operator_warning "nope"])
           [MethodCall (Column "id") "__eq__" [Int 1]] []
           (Raise (column_not_found sample.User "x")));
    reflexivity.
Defined.

(** One pair appends one predicate at most. *)
Lemma parse_filter_at_most_one (model : Model) (key : string) (value : Value)
    (ws : list Warning) (fs : list ColumnElement) :
  parse_filter model key value = (ws, Return fs) -> List.length fs <= 1.
Proof.
  unfold parse_filter.
  destruct (contains "__" key);
    [destruct (rsplit1 "__" key) as [|field_name [|op [|x rest]]];
     try discriminate|].
  - intros (ws1 & column & ws2 & _ & H & _)%bind_returns.
    apply bind_returns in H as (ws3 & sqlalchemy_filter & ws4 & _ & H & _).
    destruct (String.eqb op "or").
    + apply bind_returns in H as (? & entries & ? & _ & H & _).
      apply bind_returns in H as (? & fs' & ? & _ & H & _).
      injection H as _ <-. cbn; lia.
    + destruct (is_dict value && issubset ["value"; "condition"] value).
      * apply bind_returns in H as (? & advanced_value & ? & _ & H & _).
        apply bind_returns in H as (? & condition & ? & _ & H & _).
        apply bind_returns in H as (? & entries & ? & _ & H & _).
        apply bind_returns in H as (? & fs' & ? & _ & H & _).
        injection H as _ <-. cbn; lia.
      * destruct sqlalchemy_filter.
        -- apply bind_returns in H as (? & args & ? & _ & H & _).
           apply bind_returns in H as (? & f & ? & _ & H & _).
           injection H as _ <-. cbn; lia.
        -- injection H as _ <-. cbn; lia.
  - intros (ws1 & column & ws2 & _ & H & _)%bind_returns.
    apply bind_returns in H as (? & f & ? & _ & H & _).
    injection H as _ <-. cbn; lia.
Qed.

(** X7.  A mapping that compiles yields at most one predicate for each of
    its keys, and exactly one for each key when no key holds the
    delimiter. *)
Theorem parse_filters_one_predicate_per_key_at_most :
  forall (model : Model) (kwargs : list (string * Value))
         (ws : list Warning) (fs : list ColumnElement),
    parse_filters model kwargs = (ws, Return fs) ->
    List.length fs <= List.length kwargs
    /\ (forallb (fun kv => negb (contains "__" (fst kv))) kwargs = true ->
        List.length fs = List.length kwargs).
Proof.
  intros model kwargs. induction kwargs as [|[key value] rest IH];
    intros ws fs.
  - now intros [= _ <-].
  - unfold parse_filters at 1. cbn [parse_filters_from].
    destruct (parse_filter model key value) as [ws1 [fs1 | e]] eqn:Hpair;
      [|discriminate].
    cbn [bind app]. rewrite parse_filters_from_collected.
    destruct (parse_filters model rest) as [ws2 [fs2 | e]] eqn:Hrest;
      cbn [warnings_of outcome_of fst snd]; [|discriminate].
    intros [= _ <-]. destruct (IH _ _ eq_refl) as [Hle Heq].
    rewrite length_app. cbn [List.length forallb fst].
    split.
    + apply parse_filter_at_most_one in Hpair. lia.
    + intros [Hkey Hbare]%andb_true_iff. rewrite (Heq Hbare).
      unfold parse_filter in Hpair.
      destruct (contains "__" key); [discriminate|].
      apply bind_returns in Hpair as (? & column & ? & _ & H & _).
      apply bind_returns in H as (? & f & ? & _ & H & _).
      injection H as _ <-. reflexivity.
Qed.

Lemma parse_filters_one_predicate_per_key_at_most_witness :
  List.length [MethodCall (Column "id") "__eq__" [Int 1]]
  <= List.length [("id", Int 1); ("f__nope", Int 2)]
  /\ (forallb (fun kv : string * Value => negb (contains "__" (fst kv)))
        [("id", Int 1); ("f__nope", Int 2)] = true ->
      List.length [MethodCall (Column "id") "__eq__" [Int 1]] =
      List.length [("id", Int 1); ("f__nope", Int 2)]).
Proof.
  apply (@parse_filters_one_predicate_per_key_at_most sample.User
           [("id", Int 1); ("f__nope", Int 2)]
           [unsupported_operator_warning "nope"]).
  reflexivity.
Defined.

(** ** Operators of the table on a column *)

Lemma table_operator_plain (op method : string) :
  get _SUPPORTED_FILTERS op = Some method ->
  contains "__" ("_" ++ op) = false /\ String.eqb op "or" = false.
Proof.
  unfold _SUPPORTED_FILTERS.
  repeat (cbn [get];
          match goal with
          | |- context [String.eqb ?k op] =>
              destruct (String.eqb_spec k op) as [<- | _];
              [intros _; split; reflexivity|]
          end).
  discriminate.
Qed.

(** X8.  For every operator of the table, a key [f__op] of a column [f]
    whose value passes the guard and is not of the two-stage shape appends
    exactly one predicate, silently: the method of the operator called on
    the column with the value, or for [between] with the two or three
    elements of the value.  This holds for the arithmetic operators too,
    which are allowed at the top of a key. *)
Theorem supported_operator_applies_its_method :
  forall (model : Model) (pre : list (string * Value)) (f op method : string)
         (value : Value) (ws : list Warning) (fs : list ColumnElement),
    get _SUPPORTED_FILTERS op = Some method ->
    mem_str f (model_columns model) = true ->
    parse_filters model pre = (ws, Return fs) ->
    (mem_str op sequence_operators = true -> is_tuple_list_set value = true) ->
    two_stage value = false ->
    bounds_accepted op value = true ->
    parse_filters model (pre ++ [((f ++ "__" ++ op)%string, value)])%list =
    (ws, Return (fs ++ [MethodCall (Column f) method (operands_of op value)])%list).
Proof.
  intros model pre f op method value ws fs Hop Hf Hpre Hguard Hshape Hbounds.
  destruct (table_operator_plain _ Hop) as [Hplain Hor].
  rewrite <- (app_nil_r ws). eapply parse_filters_snoc; [exact Hpre|].
  rewrite parse_filter_field_op by exact Hplain.
  rewrite get_column_found by exact Hf. returned.
  rewrite (@get_sqlalchemy_filter_known op method value true Hop);
    [|exact Hguard | reflexivity].
  returned. rewrite Hor. unfold two_stage in Hshape. rewrite Hshape.
  unfold operands, operands_of, apply_filter, call_method, bounds_accepted in *.
  rewrite (between_method _ Hop).
  destruct (String.eqb_spec op "between") as [-> | _]; cbn [negb orb] in *.
  - assert (Hiter : iter value = Return (elements value)).
    { specialize (Hguard eq_refl). unfold elements.
      destruct value; try discriminate; reflexivity. }
    rewrite Hiter. unfold lift. returned.
    destruct (elements value) as [|b1 [|b2 [|b3 [|b4 bs]]]];
      try discriminate; reflexivity.
  - reflexivity.
Qed.

Lemma supported_operator_applies_its_method_witness :
  parse_filters sample.User
    ([("id", Int 1)] ++ [(("f" ++ "__" ++ "rsub")%string, Dict [("value", Int 2)])])%list =
  ([], Return ([MethodCall (Column "id") "__eq__" [Int 1]]
               ++ [MethodCall (Column "f") "__rsub__"
                     (operands_of "rsub" (Dict [("value", Int 2)]))])%list).
Proof.
  apply (@supported_operator_applies_its_method sample.User [("id", Int 1)]
           "f" "rsub" "__rsub__" (Dict [("value", Int 2)]) []
           [MethodCall (Column "id") "__eq__" [Int 1]]);
    try reflexivity.
  discriminate.
Defined.

(** X9.  The two-stage value is not tied to arithmetic operators.  Under any
    operator of the table that is not [in], [not_in] or [between], a value
    with [value] and a [condition] of comparisons appends the one
    conjunction of the comparisons of [f op value]; under [in], [not_in]
    or [between] the mapping is refused as a value, with the
    invalid-operator-value error. *)
Theorem two_stage_value_under_any_operator :
  forall (model : Model) (pre post : list (string * Value))
         (f op method : string) (d : list (string * Value))
         (advanced_value : Value) (condition : list (string * Value))
         (ws : list Warning) (fs : list ColumnElement),
    get _SUPPORTED_FILTERS op = Some method ->
    mem_str f (model_columns model) = true ->
    parse_filters model pre = (ws, Return fs) ->
    get d "value" = Some advanced_value ->
    get d "condition" = Some (Dict condition) ->
    forallb comparison_accepted condition = true ->
    (mem_str op sequence_operators = false ->
     parse_filters model (pre ++ [((f ++ "__" ++ op)%string, Dict d)])%list =
     (ws, Return (fs ++ [and_ (comparisons
                                 (MethodCall (Column f) method [advanced_value])
                                 condition)])%list))
    /\ (mem_str op sequence_operators = true ->
        parse_filters model (pre ++ ((f ++ "__" ++ op)%string, Dict d) :: post)%list =
        (ws, Raise (invalid_value_error op))).
Proof.
  intros model pre post f op method d advanced_value condition ws fs
         Hop Hf Hpre Hvalue Hcondition Hcomparisons.
  destruct (table_operator_plain _ Hop) as [Hplain Hor].
  split; intros Hseq.
  - assert (Hm : String.eqb method "between" = false).
    { rewrite (between_method _ Hop).
      destruct (String.eqb_spec op "between") as [-> | _];
        [discriminate | reflexivity]. }
    rewrite <- (app_nil_r ws). eapply parse_filters_snoc; [exact Hpre|].
    rewrite parse_filter_field_op by exact Hplain.
    rewrite get_column_found by exact Hf. returned.
    rewrite (@get_sqlalchemy_filter_known op method (Dict d) true Hop);
      [|congruence | reflexivity].
    returned. rewrite Hor.
    unfold issubset. cbn [is_dict iter forallb andb].
    rewrite (get_issubset _ _ Hvalue), (get_issubset _ _ Hcondition).
    cbn [andb getitem]. rewrite Hvalue, Hcondition. unfold lift.
    returned. returned. cbn [items]. returned.
    rewrite condition_filters_accepted by assumption. reflexivity.
  - rewrite <- (app_nil_r ws). eapply parse_filters_raises; [exact Hpre|].
    rewrite parse_filter_field_op by exact Hplain.
    rewrite get_column_found by exact Hf. returned.
    now rewrite get_sqlalchemy_filter_invalid_value.
Qed.

Lemma two_stage_value_under_any_operator_witness :
  (mem_str "concat" sequence_operators = false ->
   parse_filters sample.User
     ([] ++ [(("f" ++ "__" ++ "concat")%string,
              Dict [("value", Str "x"); ("condition", Dict [("like", Str "a%")])])])%list =
   ([], Return ([] ++ [and_ (comparisons
                               (MethodCall (Column "f") "concat" [Str "x"])
                               [("like", Str "a%")])])%list))
  /\ (mem_str "concat" sequence_operators = true ->
      parse_filters sample.User
        ([] ++ (("f" ++ "__" ++ "concat")%string,
                Dict [("value", Str "x"); ("condition", Dict [("like", Str "a%")])])
            :: [])%list =
      ([], Raise (invalid_value_error "concat"))).
Proof.
  apply (@two_stage_value_under_any_operator sample.User [] [] "f" "concat"
           "concat" [("value", Str "x"); ("condition", Dict [("like", Str "a%")])]
           (Str "x") [("like", Str "a%")] [] []); reflexivity.
Defined.

(** ** Sorting: what is kept, what is added, and in which order *)

Section OrderBy.
Variable model : Model.

Lemma ordered_ordered (stmt : Select) (l1 l2 : list UnaryExpression) :
  ordered (ordered stmt l1) l2 = ordered stmt (l1 ++ l2).
Proof. unfold ordered. cbn. now rewrite app_assoc. Qed.

Lemma first_missing_app (names1 names2 : list string) :
  first_missing model (names1 ++ names2) =
  match first_missing model names1 with
  | Some name => Some name
  | None => first_missing model names2
  end.
Proof.
  unfold first_missing. induction names1 as [|name rest IH]; [reflexivity|].
  cbn [app find]. now destruct (negb _).
Qed.

Lemma combine_app_same (names1 names2 orders1 orders2 : list string) :
  List.length names1 = List.length orders1 ->
  combine (names1 ++ names2) (orders1 ++ orders2) =
  (combine names1 orders1 ++ combine names2 orders2)%list.
Proof.
  revert orders1; induction names1 as [|name rest IH]; intros [|order orders];
    cbn; try discriminate; [reflexivity|].
  intros [= Hlen]. now rewrite IH.
Qed.

Lemma column_of_ordering (pairs : list (string * string)) :
  map column_of (map ordering pairs) = map Column (map fst pairs).
Proof.
  induction pairs as [|[name order] rest IH]; [reflexivity|].
  cbn [map fst]. rewrite IH. unfold ordering. cbn [fst snd].
  now destruct (String.eqb order "asc").
Qed.

(** [apply_sorting] with columns, and directions absent or in equal
    number. *)
Lemma apply_sorting_columns (stmt : Select) (sort_columns sort_orders : SortArg) :
  truthy sort_columns = true ->
  (truthy sort_orders = true ->
   List.length (as_list sort_columns) = List.length (as_list sort_orders)) ->
  apply_sorting model stmt sort_columns sort_orders =
  order_by_each model stmt
    (combine (as_list sort_columns)
       (if truthy sort_orders then as_list sort_orders
        else repeat "asc" (List.length (as_list sort_columns)))).
Proof.
  intros Hcolumns Hlen. unfold apply_sorting. rewrite Hcolumns.
  destruct (truthy sort_orders); cbn [andb negb].
  - rewrite (Hlen eq_refl), Nat.eqb_refl. cbn [negb]. unfold ret. now returned.
  - unfold ret. now returned.
Qed.

End OrderBy.

(** X10.  Sorting by some columns and then by further columns is sorting by
    all of them in one call: for lists of columns and directions of equal
    lengths, the second call applied to the statement of the first gives the
    statement, or the exception, of the call with the concatenated
    lists. *)
Theorem apply_sorting_twice_is_concatenation :
  forall (model : Model) (stmt : Select)
         (columns1 orders1 columns2 orders2 : list string),
    columns1 <> [] ->
    columns2 <> [] ->
    List.length columns1 = List.length orders1 ->
    List.length columns2 = List.length orders2 ->
    bind (apply_sorting model stmt (Names columns1) (Names orders1))
         (fun sorted => apply_sorting model sorted (Names columns2) (Names orders2)) =
    apply_sorting model stmt (Names (columns1 ++ columns2))
                  (Names (orders1 ++ orders2)).
Proof.
  intros model stmt columns1 orders1 columns2 orders2 Hne1 Hne2 Hlen1 Hlen2.
  assert (Htruthy : forall l : list string, l <> [] -> truthy (Names l) = true)
    by (intros [|x l] Hl; [contradiction | reflexivity]).
  assert (Hno1 : orders1 <> [])
    by (destruct columns1, orders1; try discriminate; congruence).
  assert (Hno2 : orders2 <> [])
    by (destruct columns2, orders2; try discriminate; congruence).
  assert (Hne12 : (columns1 ++ columns2)%list <> [])
    by (destruct columns1; [contradiction | discriminate]).
  assert (Hno12 : (orders1 ++ orders2)%list <> [])
    by (destruct orders1; [contradiction | discriminate]).
  assert (Hlen12 : List.length (columns1 ++ columns2) =
                   List.length (orders1 ++ orders2))
    by (rewrite !length_app; congruence).
  rewrite (@apply_sorting_columns model stmt (Names columns1) (Names orders1)
             (Htruthy _ Hne1) (fun _ => Hlen1)).
  rewrite (@apply_sorting_columns model stmt (Names (columns1 ++ columns2))
             (Names (orders1 ++ orders2)) (Htruthy _ Hne12) (fun _ => Hlen12)).
  rewrite (Htruthy _ Hno1), (Htruthy _ Hno12). cbn [as_list].
  rewrite !order_by_each_spec, combine_app_same by assumption.
  rewrite map_app, !map_fst_combine by assumption.
  rewrite first_missing_app.
  destruct (first_missing model columns1); [reflexivity|].
  rewrite bind_ret_l.
  rewrite (@apply_sorting_columns model _ (Names columns2) (Names orders2)
             (Htruthy _ Hne2) (fun _ => Hlen2)).
  rewrite (Htruthy _ Hno2). cbn [as_list].
  rewrite order_by_each_spec, map_fst_combine by assumption.
  destruct (first_missing model columns2); [reflexivity|].
  now rewrite ordered_ordered, map_app.
Qed.

Lemma apply_sorting_twice_is_concatenation_witness :
  bind (apply_sorting sample.User sample.query (Names ["f"]) (Names ["desc"]))
       (fun sorted => apply_sorting sample.User sorted (Names ["id"; "a"])
                                    (Names ["asc"; "x"])) =
  apply_sorting sample.User sample.query (Names (["f"] ++ ["id"; "a"]))
                (Names (["desc"] ++ ["asc"; "x"])).
Proof.
  apply (@apply_sorting_twice_is_concatenation sample.User sample.query
           ["f"] ["desc"] ["id"; "a"] ["asc"; "x"]);
    try discriminate; reflexivity.
Defined.

(** X11.  A statement that [apply_sorting] returns keeps the entity and the
    filters of the statement it was given and all its earlier ordering
    clauses in front; what is added is one clause for each sort column, in
    the order of the columns, so that the first column is the primary key
    of the sort; and no warning is issued. *)
Theorem apply_sorting_keeps_statement_and_appends_in_order :
  forall (model : Model) (stmt sorted : Select)
         (sort_columns sort_orders : SortArg) (ws : list Warning),
    apply_sorting model stmt sort_columns sort_orders = (ws, Return sorted) ->
    ws = []
    /\ select_from sorted = select_from stmt
    /\ whereclause sorted = whereclause stmt
    /\ exists clauses,
         order_by_clauses sorted = (order_by_clauses stmt ++ clauses)%list
         /\ map column_of clauses =
            map Column (if truthy sort_columns then as_list sort_columns else []).
Proof.
  intros model stmt sorted sort_columns sort_orders ws.
  destruct (truthy sort_columns) eqn:Hcolumns.
  - destruct (truthy sort_orders) eqn:Horders.
    + destruct (Nat.eqb_spec (List.length (as_list sort_columns))
                             (List.length (as_list sort_orders))) as [Hlen | Hlen].
      * rewrite apply_sorting_columns by auto. rewrite Horders.
        rewrite order_by_each_spec, map_fst_combine by exact Hlen.
        destruct (first_missing model _); [discriminate|].
        intros [= <- <-]. repeat split.
        eexists. split; [reflexivity|].
        now rewrite column_of_ordering, map_fst_combine.
      * unfold apply_sorting. rewrite Horders, Hcolumns. cbn [andb negb].
        apply Nat.eqb_neq in Hlen. rewrite Hlen. discriminate.
    + rewrite apply_sorting_columns by (first [assumption | congruence]).
      rewrite Horders.
      rewrite order_by_each_spec, map_fst_combine by (now rewrite repeat_length).
      destruct (first_missing model _); [discriminate|].
      intros [= <- <-]. repeat split.
      eexists. split; [reflexivity|].
      now rewrite column_of_ordering, map_fst_combine by (now rewrite repeat_length).
  - unfold apply_sorting. rewrite Hcolumns.
    destruct (truthy sort_orders); cbn [andb negb]; [discriminate|].
    intros [= <- <-]. repeat split.
    exists []. now rewrite app_nil_r.
Qed.

Lemma apply_sorting_keeps_statement_and_appends_in_order_witness :
  [] = @nil Warning
  /\ select_from (ordered (ordered sample.query [desc (Column "id")])
                    [asc (Column "f"); desc (Column "a")]) =
     select_from (ordered sample.query [desc (Column "id")])
  /\ whereclause (ordered (ordered sample.query [desc (Column "id")])
                    [asc (Column "f"); desc (Column "a")]) =
     whereclause (ordered sample.query [desc (Column "id")])
  /\ exists clauses,
       order_by_clauses (ordered (ordered sample.query [desc (Column "id")])
                           [asc (Column "f"); desc (Column "a")]) =
       (order_by_clauses (ordered sample.query [desc (Column "id")]) ++ clauses)%list
       /\ map column_of clauses =
          map Column (if truthy (Names ["f"; "a"]) then as_list (Names ["f"; "a"])
                      else []).
Proof.
  apply (@apply_sorting_keeps_statement_and_appends_in_order sample.User
           (ordered sample.query [desc (Column "id")])
           (ordered (ordered sample.query [desc (Column "id")])
              [asc (Column "f"); desc (Column "a")])
           (Names ["f"; "a"]) (Names ["asc"; "down"]) []).
  reflexivity.
Defined.



(** ** The mutations of the facade *)

Section Mutations.
Context {Database : Type} `{Engine Database}.

Lemma execute_mutation (stmt : Statement) (session : Session Database) :
  is_mutation stmt = true ->
  AsyncSession.execute stmt session =
  ({| database := fst (mutate stmt (database session));
      committed := committed session;
      executed := (executed session ++ [stmt])%list |},
   {| scalar := None; rowcount := snd (mutate stmt (database session)) |}).
Proof.
  destruct stmt; [discriminate| |]; intros _; cbn [AsyncSession.execute];
    now destruct (mutate _ _).
Qed.

End Mutations.

(** X13.  When the filters of [update_model_by_column] or
    [delete_model_by_column] do not compile, the call ends with the
    exception of the compiler and its warnings, and the session is the one
    from before the call: no count query and no mutation was executed. *)
Theorem filters_that_fail_leave_the_session :
  forall (Database : Type) (engine : Engine Database) (self : CRUDPlus)
         (obj : UpdateObject) (allow_multiple logical_deletion : bool)
         (deleted_flag_column : string) (commit : bool)
         (kwargs : list (string * Value)) (session : Session Database)
         (ws : list Warning) (e : Exception),
    parse_filters (model self) kwargs = (ws, Raise e) ->
    update_model_by_column self obj allow_multiple commit kwargs session =
    (session, (ws, Raise e))
    /\ delete_model_by_column self allow_multiple logical_deletion
         deleted_flag_column commit kwargs session =
       (session, (ws, Raise e)).
Proof.
  intros Database engine self obj allow_multiple logical_deletion
         deleted_flag_column commit kwargs session ws e Hparse.
  unfold update_model_by_column, delete_model_by_column.
  unfold io_bind at 1 3. unfold io_lift at 1 3. now rewrite Hparse.
Qed.

Lemma filters_that_fail_leave_the_session_witness :
  update_model_by_column sample.users (PlainDict [("f", Int 0)]) true true
    [("f__in", Int 7)] sample.session =
  (sample.session, ([], Raise (invalid_value_error "in")))
  /\ delete_model_by_column sample.users true false "del_flag" true
       [("f__in", Int 7)] sample.session =
     (sample.session, ([], Raise (invalid_value_error "in"))).
Proof.
  apply (@filters_that_fail_leave_the_session (list sample.Row)
           sample.changed_rows_engine sample.users (PlainDict [("f", Int 0)])
           true false "del_flag" true [("f__in", Int 7)] sample.session).
  reflexivity.
Defined.

(** X14.  Past the guard, that is with [allow_multiple] or with at most one
    matching row (none included), [update_model_by_column] executes the
    count query and then one update of the model with the compiled filters
    and the data of the object, and nothing else; the rows of the session
    are those the engine yields for that update; and the rows are committed
    exactly when [commit] is set. *)
Theorem update_model_by_column_past_the_guard :
  forall (Database : Type) (engine : Engine Database) (self : CRUDPlus)
         (obj : UpdateObject) (allow_multiple commit : bool)
         (kwargs : list (string * Value)) (session : Session Database)
         (ws : list Warning) (filters : list ColumnElement),
    parse_filters (model self) kwargs = (ws, Return filters) ->
    allow_multiple = true \/ (matched (model self) filters session <= 1)%Z ->
    let stmt := Update (model self) filters (instance_data_of obj) in
    exists session',
      update_model_by_column self obj allow_multiple commit kwargs session =
      (session', (ws, Return (reported stmt session)))
      /\ executed session' =
         (executed session ++ [SelectCount (model self) filters; stmt])%list
      /\ database session' = fst (mutate stmt (database session))
      /\ committed session' =
         (if commit then database session' else committed session).
Proof.
  intros Database engine self obj allow_multiple commit kwargs session ws
         filters Hparse Hguard stmt.
  assert (Hpass : negb allow_multiple
                  && (1 <? matched (model self) filters session)%Z = false).
  { destruct Hguard as [-> | Hle]; [reflexivity|].
    apply Z.ltb_ge in Hle. rewrite Hle. apply andb_false_r. }
  rewrite (update_model_by_column_guard _ _ _ _ _ _ Hparse).
  cbv zeta. rewrite Hpass. fold stmt.
  rewrite execute_mutation by reflexivity. cbn [fst snd rowcount counted database].
  eexists. split; [reflexivity|].
  destruct commit; cbn; rewrite <- app_assoc; now repeat split.
Qed.

Lemma update_model_by_column_past_the_guard_witness :
  exists session',
    update_model_by_column sample.users (PlainDict [("f", Int 0)]) false false
      [("id", Int 4)] sample.session =
    (session',
     ([], Return (reported (Update (model sample.users)
                              [MethodCall (Column "id") "__eq__" [Int 4]]
                              (instance_data_of (PlainDict [("f", Int 0)])))
                    sample.session)))
    /\ executed session' =
       (executed sample.session
          ++ [SelectCount (model sample.users)
                [MethodCall (Column "id") "__eq__" [Int 4]];
              Update (model sample.users)
                [MethodCall (Column "id") "__eq__" [Int 4]]
                (instance_data_of (PlainDict [("f", Int 0)]))])%list
    /\ database session' =
       fst (mutate (Update (model sample.users)
                      [MethodCall (Column "id") "__eq__" [Int 4]]
                      (instance_data_of (PlainDict [("f", Int 0)])))
              (database sample.session))
    /\ committed session' =
       (if false then database session' else committed sample.session).
Proof.
  apply (@update_model_by_column_past_the_guard (list sample.Row)
           sample.changed_rows_engine sample.users (PlainDict [("f", Int 0)])
           false false [("id", Int 4)] sample.session []
           [MethodCall (Column "id") "__eq__" [Int 4]]).
  - reflexivity.
  - right. cbv. discriminate.
Defined.




(** ** The queries of the facade *)

Lemma bare_key_filter (model : Model) (name : string) (value : Value) :
  contains "__" name = false ->
  mem_str name (model_columns model) = true ->
  parse_filters model [(name, value)] =
  ([], Return [MethodCall (Column name) "__eq__" [value]]).
Proof.
  intros Hname Hcolumn. unfold parse_filters. cbn [parse_filters_from].
  unfold parse_filter. rewrite Hname.
  rewrite get_column_found by exact Hcolumn. returned. reflexivity.
Qed.

Lemma apply_sorting_silent (model : Model) (stmt : Select)
    (sort_columns sort_orders : SortArg) :
  warnings_of (apply_sorting model stmt sort_columns sort_orders) = [].
Proof.
  unfold apply_sorting.
  destruct (truthy sort_orders), (truthy sort_columns); cbn [andb negb];
    try reflexivity.
  - destruct (negb _); [reflexivity|]. unfold ret. returned.
    rewrite order_by_each_spec. now destruct (first_missing _ _).
  - unfold ret. returned.
    rewrite order_by_each_spec. now destruct (first_missing _ _).
Qed.

(** X17.  [select_model_by_column] yields the first of the instances that
    [select_models] yields for the same filters, or [None] when there is
    none, with the same warnings and the same exception.  And when the
    primary key is a column of the model whose name holds no delimiter,
    [select_model] on a key is [select_model_by_column] on the filter that
    maps the primary key name to that key. *)
Theorem select_one_is_first_of_select_models :
  forall (Database Instance : Type) (mapper : Mapper Database Instance)
         (self : CRUDPlus) (session : Session Database),
    (forall kwargs,
        select_model_by_column self kwargs session =
        bind (select_models self kwargs session)
             (fun instances => ret (hd_error instances)))
    /\ (forall (name : string) (pk : Value),
           primary_key self = Column name ->
           contains "__" name = false ->
           mem_str name (model_columns (model self)) = true ->
           select_model self pk session =
           select_model_by_column self [(name, pk)] session).
Proof.
  intros Database Instance mapper self session. split.
  - intros kwargs. unfold select_model_by_column, select_models.
    destruct (parse_filters (model self) kwargs) as [ws [filters | e]];
      [|reflexivity].
    cbn [bind ret]. now rewrite !app_nil_r.
  - intros name pk Hpk Hname Hcolumn.
    unfold select_model, select_model_by_column, pk_equals.
    rewrite bare_key_filter by assumption. rewrite Hpk. reflexivity.
Qed.

Lemma select_one_is_first_of_select_models_witness :
  select_model sample.users (Int 2) sample.session =
  select_model_by_column sample.users [("id", Int 2)] sample.session.
Proof.
  apply (proj2 (@select_one_is_first_of_select_models (list sample.Row)
                  sample.Row sample.row_mapper sample.users sample.session)
           "id" (Int 2)); reflexivity.
Defined.

(** X18.  [select_models_order] compiles the filters before it looks at the
    sort arguments: filters that do not compile end the call with their
    exception whatever the sort arguments are.  With filters that compile,
    an exception of [apply_sorting] ends the call before any rows are read,
    and with sort columns and sort orders both absent the call yields what
    [select_models] yields. *)
Theorem select_models_order_steps :
  forall (Database Instance : Type) (mapper : Mapper Database Instance)
         (self : CRUDPlus) (sort_columns sort_orders : SortArg)
         (kwargs : list (string * Value)) (session : Session Database),
    (forall ws e,
        parse_filters (model self) kwargs = (ws, Raise e) ->
        select_models_order self sort_columns sort_orders kwargs session =
        (ws, Raise e))
    /\ (forall ws filters e,
           parse_filters (model self) kwargs = (ws, Return filters) ->
           outcome_of (apply_sorting (model self) (select_where self filters)
                         sort_columns sort_orders) = Raise e ->
           select_models_order self sort_columns sort_orders kwargs session =
           (ws, Raise e))
    /\ (truthy sort_columns = false ->
        truthy sort_orders = false ->
        select_models_order self sort_columns sort_orders kwargs session =
        select_models self kwargs session).
Proof.
  intros Database Instance mapper self sort_columns sort_orders kwargs session.
  unfold select_models_order, select_models. split; [|split].
  - intros ws e Hparse. now rewrite Hparse.
  - intros ws filters e Hparse Hsort. rewrite Hparse. cbn [bind].
    assert (Hws := apply_sorting_silent (model self) (select_where self filters)
                     sort_columns sort_orders).
    destruct (apply_sorting _ _ _ _) as [ws' [sorted | e']];
      cbn [outcome_of snd warnings_of fst] in *; [discriminate|].
    injection Hsort as ->. subst ws'. cbn [bind]. now rewrite app_nil_r.
  - intros Hcolumns Horders.
    destruct (parse_filters (model self) kwargs) as [ws [filters | e]];
      [|reflexivity].
    cbn [bind]. unfold apply_sorting. rewrite Hcolumns, Horders.
    cbn [andb negb]. unfold ret. now returned.
Qed.

Lemma select_models_order_steps_witness :
  select_models_order sample.users (Names ["nope"]) (Names ["asc"; "desc"])
    [("f__between", Int 1)] sample.session =
  (([] : list Warning), Raise (invalid_value_error "between"))
  /\ select_models_order sample.users (Names ["id"]) (Names ["asc"; "desc"])
       [("f", Int 7)] sample.session =
     (([] : list Warning),
      Raise (ColumnSortError "The length of sort_columns and sort_orders must match."))
  /\ select_models_order sample.users (Names []) NoSort [("f", Int 7)]
       sample.session =
     select_models sample.users [("f", Int 7)] sample.session.
Proof.
  split; [|split].
  - apply (proj1 (@select_models_order_steps (list sample.Row) sample.Row
                    sample.row_mapper sample.users (Names ["nope"])
                    (Names ["asc"; "desc"]) [("f__between", Int 1)]
                    sample.session)).
    reflexivity.
  - apply (proj1 (proj2 (@select_models_order_steps (list sample.Row) sample.Row
                           sample.row_mapper sample.users (Names ["id"])
                           (Names ["asc"; "desc"]) [("f", Int 7)]
                           sample.session))
             [] [MethodCall (Column "f") "__eq__" [Int 7]]);
      reflexivity.
  - apply (proj2 (proj2 (@select_models_order_steps (list sample.Row) sample.Row
                           sample.row_mapper sample.users (Names []) NoSort
                           [("f", Int 7)] sample.session)));
      reflexivity.
Defined.

(** ** Keyword arguments and the creation of instances *)

Section KeywordArguments.

Lemma mem_str_false (s : string) (l : list string) :
  mem_str s l = false <-> ~ In s l.
Proof.
  rewrite <- mem_str_In. destruct (mem_str s l); split; congruence.
Qed.

Lemma setitem_absent (d : list (string * Value)) (k : string) (v : Value) :
  ~ In k (map fst d) -> Kwargs.setitem d k v = (d ++ [(k, v)])%list.
Proof.
  induction d as [|[k' v'] rest IH]; intros Hk; [reflexivity|].
  cbn [Kwargs.setitem app]. cbn [map fst In] in Hk.
  destruct (String.eqb_spec k' k) as [-> | _]; [tauto|].
  rewrite IH by tauto. reflexivity.
Qed.

Lemma get_setitem_same (d : list (string * Value)) (k : string) (v : Value) :
  get (Kwargs.setitem d k v) k = Some v.
Proof.
  induction d as [|[k' v'] rest IH]; cbn [Kwargs.setitem get].
  - now rewrite String.eqb_refl.
  - destruct (String.eqb k' k) eqn:E; cbn [get]; rewrite E; [reflexivity | exact IH].
Qed.

Lemma get_setitem_other (d : list (string * Value)) (k k0 : string) (v : Value) :
  k0 <> k -> get (Kwargs.setitem d k0 v) k = get d k.
Proof.
  intros Hk. induction d as [|[k' v'] rest IH]; cbn [Kwargs.setitem get].
  - destruct (String.eqb_spec k0 k); [contradiction | reflexivity].
  - destruct (String.eqb_spec k' k0) as [-> | _]; cbn [get].
    + destruct (String.eqb_spec k0 k); [contradiction | reflexivity].
    + now rewrite IH.
Qed.

Lemma get_absent {A : Type} (d : list (string * A)) (k : string) :
  ~ In k (map fst d) -> get d k = None.
Proof.
  induction d as [|[k' v'] rest IH]; intros Hk; [reflexivity|].
  cbn [get]. cbn [map fst In] in Hk.
  destruct (String.eqb_spec k' k); [tauto | apply IH; tauto].
Qed.

Lemma merged_disjoint (d1 d2 : list (string * Value)) :
  (forall key, In key (map fst d2) -> ~ In key (map fst d1)) ->
  NoDup (map fst d2) ->
  Kwargs.merged d1 d2 = (d1 ++ d2)%list.
Proof.
  unfold Kwargs.merged.
  revert d1; induction d2 as [|[k v] rest IH]; intros d1 Hdisjoint Hnodup.
  - cbn. now rewrite app_nil_r.
  - cbn [fold_left fst snd]. cbn [map fst] in Hnodup, Hdisjoint.
    apply NoDup_cons_iff in Hnodup as [Hk Hrest].
    rewrite setitem_absent by (apply Hdisjoint; now left).
    rewrite IH; [now rewrite <- app_assoc | | exact Hrest].
    intros key Hkey. rewrite map_app, in_app_iff. cbn [map fst In].
    intros [Hin | [<- | []]]; [|contradiction].
    apply (Hdisjoint key); [now right | exact Hin].
Qed.

Lemma unpacked_disjoint (d1 d2 : list (string * Value)) :
  (forall key, In key (map fst d2) -> ~ In key (map fst d1)) ->
  Kwargs.unpacked d1 d2 = Return (d1 ++ d2)%list.
Proof.
  intros Hdisjoint. unfold Kwargs.unpacked.
  destruct (existsb _ d2) eqn:Hclash; [|reflexivity].
  apply existsb_exists in Hclash as ([k v] & Hin & Hmem).
  apply mem_str_In in Hmem. cbn [fst] in Hmem.
  exfalso. apply (Hdisjoint k); [|exact Hmem].
  apply in_map_iff. now exists (k, v).
Qed.

Lemma unpacked_clash (d1 d2 : list (string * Value)) (key : string) :
  In key (map fst d2) -> In key (map fst d1) ->
  Kwargs.unpacked d1 d2 = Raise TypeError.
Proof.
  intros H2 H1. unfold Kwargs.unpacked.
  apply in_map_iff in H2 as ([k v] & <- & Hin).
  assert (Hclash : existsb (fun kv : string * Value => mem_str (fst kv) (map fst d1)) d2
                   = true).
  { apply existsb_exists. exists (k, v). split; [exact Hin|].
    now apply mem_str_In. }
  now rewrite Hclash.
Qed.

End KeywordArguments.

(** X19.  On a keyword given both by the schema object and by the extra
    keyword arguments, [create_model] of [my_crud.py] raises [TypeError]
    before the constructor is called, and the unit of work is untouched.
    When no keyword is given twice, [create_model] of [crud.py] and of
    [my_crud.py] do the same. *)
Theorem create_model_on_repeated_keyword :
  forall (Database Instance : Type) (mapper : Mapper Database Instance)
         (self : CRUDPlus) (obj : CreateSchema) (commit : bool)
         (kwargs : list (string * Value)) (work : UnitOfWork Database Instance),
    NoDup (map fst kwargs) ->
    (forall key,
        In key (map fst kwargs) -> In key (map fst (model_dump obj)) ->
        my_crud.create_model self obj commit kwargs work = (work, Raise TypeError))
    /\ ((forall key, In key (map fst kwargs) ->
                     ~ In key (map fst (model_dump obj))) ->
        crud.create_model self obj commit kwargs work =
        my_crud.create_model self obj commit kwargs work).
Proof.
  intros Database Instance mapper self obj commit kwargs work Hnodup. split.
  - intros key Hkwargs Hdump. unfold my_crud.create_model.
    now rewrite (@unpacked_clash _ _ key Hkwargs Hdump).
  - intros Hdisjoint. unfold my_crud.create_model, crud.create_model.
    rewrite unpacked_disjoint by exact Hdisjoint.
    now rewrite merged_disjoint by assumption.
Qed.

Lemma create_model_on_repeated_keyword_witness :
  my_crud.create_model sample.users {| model_dump := [("id", Int 9); ("f", Int 1)] |}
    true [("a", Int 2); ("f", Int 3)] sample.work =
  (sample.work, Raise TypeError)
  /\ crud.create_model sample.users {| model_dump := [("id", Int 9)] |}
       true [("a", Int 2); ("f", Int 3)] sample.work =
     my_crud.create_model sample.users {| model_dump := [("id", Int 9)] |}
       true [("a", Int 2); ("f", Int 3)] sample.work.
Proof.
  assert (Hnodup : NoDup (map fst [("a", Int 2); ("f", Int 3)])).
  { cbn. repeat constructor; cbn; intuition discriminate. }
  split.
  - apply (proj1 (@create_model_on_repeated_keyword (list sample.Row) sample.Row
                    sample.row_mapper sample.users
                    {| model_dump := [("id", Int 9); ("f", Int 1)] |} true
                    [("a", Int 2); ("f", Int 3)] sample.work Hnodup) "f");
      cbn; tauto.
  - apply (proj2 (@create_model_on_repeated_keyword (list sample.Row) sample.Row
                    sample.row_mapper sample.users
                    {| model_dump := [("id", Int 9)] |} true
                    [("a", Int 2); ("f", Int 3)] sample.work Hnodup)).
    intros key [<- | [<- | []]] [H | []]; discriminate H.
Defined.

Lemma get_merged (d1 d2 : list (string * Value)) (key : string) :
  NoDup (map fst d2) ->
  get (Kwargs.merged d1 d2) key =
  match get d2 key with
  | Some v => Some v
  | None => get d1 key
  end.
Proof.
  unfold Kwargs.merged.
  revert d1; induction d2 as [|[k v] rest IH]; intros d1 Hnodup; [reflexivity|].
  cbn [fold_left fst snd get]. cbn [map fst] in Hnodup.
  apply NoDup_cons_iff in Hnodup as [Hk Hrest].
  rewrite (IH _ Hrest).
  destruct (String.eqb_spec k key) as [-> | Hother].
  - rewrite (get_absent _ _ Hk). apply get_setitem_same.
  - destruct (get rest key); [reflexivity|]. now apply get_setitem_other.
Qed.

(** X20.  [create_model] of [crud.py] merges the keywords before it calls
    the constructor: in the data it hands over, a keyword has the value of
    the extra keyword arguments when they give it and the value of the
    schema object otherwise.  A keyword given twice is therefore no error:
    with a constructor that accepts the data an instance is returned
    whatever the keywords are. *)
Theorem crud_create_model_merges_keywords :
  forall (Database Instance : Type) (mapper : Mapper Database Instance)
         (self : CRUDPlus) (obj : CreateSchema) (commit : bool)
         (kwargs : list (string * Value)) (work : UnitOfWork Database Instance),
    NoDup (map fst kwargs) ->
    (forall key,
        get (Kwargs.merged (model_dump obj) kwargs) key =
        match get kwargs key with
        | Some v => Some v
        | None => get (model_dump obj) key
        end)
    /\ (forall ins,
           construct (model self) (Kwargs.merged (model_dump obj) kwargs)
           = Return ins ->
           snd (crud.create_model self obj commit kwargs work) = Return ins
           /\ pending (fst (crud.create_model self obj false kwargs work)) =
              (pending work ++ [ins])%list).
Proof.
  intros Database Instance mapper self obj commit kwargs work Hnodup. split.
  - intros key. now apply get_merged.
  - intros ins Hins. unfold crud.create_model. cbv zeta. rewrite Hins.
    now split.
Qed.

Lemma crud_create_model_merges_keywords_witness :
  snd (crud.create_model sample.users
         {| model_dump := [("id", Int 9); ("f", Int 1)] |} true
         [("a", Int 2); ("f", Int 3)] sample.work) =
  Return [("id", 9%Z); ("f", 3%Z); ("a", 2%Z)]
  /\ pending (fst (crud.create_model sample.users
                     {| model_dump := [("id", Int 9); ("f", Int 1)] |} false
                     [("a", Int 2); ("f", Int 3)] sample.work)) =
     (pending sample.work ++ [[("id", 9%Z); ("f", 3%Z); ("a", 2%Z)]])%list.
Proof.
  assert (Hnodup : NoDup (map fst [("a", Int 2); ("f", Int 3)])).
  { cbn. repeat constructor; cbn; intuition discriminate. }
  apply (proj2 (@crud_create_model_merges_keywords (list sample.Row) sample.Row
                  sample.row_mapper sample.users
                  {| model_dump := [("id", Int 9); ("f", Int 1)] |} true
                  [("a", Int 2); ("f", Int 3)] sample.work Hnodup)).
  reflexivity.
Defined.

(** X21.  [create_models] constructs every instance before it adds any: when
    the constructor refuses one of the objects, the call ends with that
    exception and the unit of work is untouched, also for the objects
    before it.  When all are constructed, the instances are returned in the
    order of the objects, one for each, and without a commit they are added
    in that order behind what was pending and the rows are left alone. *)
Theorem create_models_all_or_nothing :
  forall (Database Instance : Type) (mapper : Mapper Database Instance)
         (self : CRUDPlus) (commit : bool) (work : UnitOfWork Database Instance),
    (forall (before after : list CreateSchema) (refused : CreateSchema)
            (e : Exception),
        (forall obj, In obj before ->
                     exists ins, construct (model self) (model_dump obj) = Return ins) ->
        construct (model self) (model_dump refused) = Raise e ->
        create_models self (before ++ refused :: after) commit work =
        (work, Raise e))
    /\ (forall (objs : list CreateSchema) (instances : list Instance),
           Forall2 (fun obj ins =>
                      construct (model self) (model_dump obj) = Return ins)
                   objs instances ->
           snd (create_models self objs commit work) = Return instances
           /\ create_models self objs false work =
              ({| session_of := session_of work;
                  pending := (pending work ++ instances)%list |},
               Return instances)).
Proof.
  intros Database Instance mapper self commit work. split.
  - intros before after refused e Hbefore Hrefused.
    assert (Hlist : ins_list self (before ++ refused :: after) = Raise e).
    { induction before as [|obj rest IH]; cbn [app ins_list].
      - now rewrite Hrefused.
      - destruct (Hbefore obj (or_introl eq_refl)) as [ins ->].
        rewrite IH; [reflexivity|].
        intros obj' Hin. apply Hbefore. now right. }
    unfold create_models. now rewrite Hlist.
  - intros objs instances Hall.
    assert (Hlist : ins_list self objs = Return instances).
    { induction Hall as [|obj ins objs instances Hone _ IH]; [reflexivity|].
      cbn [ins_list]. now rewrite Hone, IH. }
    unfold create_models. rewrite Hlist. now split.
Qed.

Lemma create_models_all_or_nothing_witness :
  create_models sample.users
    ([{| model_dump := [("id", Int 8)] |}]
       ++ {| model_dump := [("nope", Int 1)] |}
       :: [{| model_dump := [("id", Int 9)] |}])%list
    true sample.work =
  (sample.work, Raise TypeError).
Proof.
  apply (proj1 (@create_models_all_or_nothing (list sample.Row) sample.Row
                  sample.row_mapper sample.users true sample.work)
           [{| model_dump := [("id", Int 8)] |}]
           [{| model_dump := [("id", Int 9)] |}]
           {| model_dump := [("nope", Int 1)] |} TypeError).
  - intros obj [<- | []]. eexists. reflexivity.
  - reflexivity.
Defined.

(** X22.  A single name is a list of one name: for a non-empty column name
    and a non-empty direction, [apply_sorting] with the two strings does
    what it does with the two one-element lists, and a single column with
    no direction gets the one ascending clause when it resolves. *)
Theorem apply_sorting_promotes_single_names :
  forall (model : Model) (stmt : Select) (column order : string),
    column <> EmptyString ->
    (order <> EmptyString ->
     apply_sorting model stmt (OneName column) (OneName order) =
     apply_sorting model stmt (Names [column]) (Names [order])
     /\ apply_sorting model stmt (OneName column) (Names [order]) =
        apply_sorting model stmt (Names [column]) (Names [order])
     /\ apply_sorting model stmt (Names [column]) (OneName order) =
        apply_sorting model stmt (Names [column]) (Names [order]))
    /\ (mem_str column (model_columns model) = true ->
        apply_sorting model stmt (OneName column) NoSort =
        ([], Return (ordered stmt [asc (Column column)]))).
Proof.
  intros model stmt column order Hcolumn.
  assert (Htruthy : forall s, s <> EmptyString -> truthy (OneName s) = true).
  { intros s Hs. cbn [truthy].
    destruct (String.eqb_spec s EmptyString); [contradiction | reflexivity]. }
  split.
  - intros Horder. unfold apply_sorting.
    rewrite (Htruthy _ Hcolumn), (Htruthy _ Horder). now repeat split.
  - intros Hresolves. unfold apply_sorting. rewrite (Htruthy _ Hcolumn).
    cbn [truthy andb negb as_list List.length repeat combine]. unfold ret.
    returned. cbn [order_by_each].
    rewrite get_column_found by exact Hresolves. returned. reflexivity.
Qed.

Lemma apply_sorting_promotes_single_names_witness :
  apply_sorting sample.User sample.query (OneName "f") (OneName "desc") =
  apply_sorting sample.User sample.query (Names ["f"]) (Names ["desc"])
  /\ apply_sorting sample.User sample.query (OneName "f") (Names ["desc"]) =
     apply_sorting sample.User sample.query (Names ["f"]) (Names ["desc"])
  /\ apply_sorting sample.User sample.query (Names ["f"]) (OneName "desc") =
     apply_sorting sample.User sample.query (Names ["f"]) (Names ["desc"]).
Proof.
  apply (proj1 (@apply_sorting_promotes_single_names sample.User sample.query
                  "f" "desc" ltac:(discriminate))).
  discriminate.
Defined.
